(** * Arbiter: execution-aware analytics core

    A shallow embedding of the analytics core of the Arbiter dashboard:

    - [execution-types.ts]   the order-book, trade and payoff records;
    - [execution-engine.ts]  [calculateExecutionPrice] and its helpers,
      [analyzeOrderBook], [findMaxSizeWithinSlippage];
    - [payoff-calculator.ts] [calculatePayoff], [calculateCombinedPayoff],
      [calculateKellyFraction];
    - [arbitrage-analyzer.ts] [compareMarkets], [findMaxViableArbSize],
      [analyzeMarketEfficiency], [findArbExhaustionPoint];
    - [discrepancy-engine.ts] [DiscrepancyEngine.detectDiscrepancies],
      [calculateArbitrageOpportunity];
    - [clob-client.ts], [kalshi.ts]  the pure part of [fetchOrderBook] and
      of [fetchMarkets], after the response has been received.

    Numbers.  A TypeScript [number] is modelled as an exact rational
    ([Q], compared with [==]): sums, products and quotients are the
    mathematical ones, so rounding, [NaN] and the infinities of IEEE
    doubles are outside the model.  Every division of the source that is
    reached below has a denominator that the source (or the hypotheses of
    the statement) keeps away from zero.  The integer sizes of the binary
    search are modelled as [Z]. *)

From Stdlib Require Import QArith Qminmax Qabs Lqa.
From Stdlib Require Import ZArith Lia List String Ascii Bool Sorted Permutation.
From Equations Require Import Equations.
Import ListNotations.

Local Open Scope Q_scope.

(** ** Numbers *)

Definition number := Q.

(** [a < b], [a > b] and [a >= b] as the source's boolean tests. *)
Definition Qltb (a b : Q) : bool := negb (Qle_bool b a).
Definition Qgtb (a b : Q) : bool := Qltb b a.
Definition Qgeb (a b : Q) : bool := Qle_bool b a.

(** ** execution-types.ts *)

Inductive TradeSide := BUY | SELL.
Inductive Outcome := YES | NO.

Module OrderBookLevel.
Record t := mk { price : number; size : number }.
End OrderBookLevel.

Module OrderBook.
Record t := mk {
  bids : list OrderBookLevel.t;
  asks : list OrderBookLevel.t;
  timestamp : Z;
  tokenId : string;
  marketId : string
}.
End OrderBook.

Module MarketOrderBooks.
Record t := mk {
  marketId : string;
  question : string;
  yes : OrderBook.t;
  no : OrderBook.t;
  fetchedAt : Z
}.
End MarketOrderBooks.

Module TradeInput.
Record t := mk { side : TradeSide; outcome : Outcome; size : number }.
End TradeInput.

Module Fill.
Record t := mk { price : number; size : number; cumulative : number }.
End Fill.

Module ExecutionResult.
Record t := mk {
  side : TradeSide;
  outcome : Outcome;
  requestedSize : number;
  filledSize : number;
  averagePrice : number;
  totalCost : number;
  bestPrice : number;
  worstPrice : number;
  slippageFromBest : number;
  slippagePercent : number;
  fills : list Fill.t;
  partialFill : bool;
  remainingSize : number
}.
End ExecutionResult.

Module PayoffResult.
Record t := mk {
  side : TradeSide;
  outcome : Outcome;
  contracts : number;
  entryPrice : number;
  totalCost : number;
  pnlIfYes : number;
  returnIfYes : number;
  pnlIfNo : number;
  returnIfNo : number;
  maxGain : number;
  maxLoss : number;
  capitalAtRisk : number;
  impliedProbability : number
}.
End PayoffResult.

(** ** execution-engine.ts *)

Module ExecutionEngine.

(** The mutable locals of the level walk of [calculateExecutionPrice]. *)
Record WalkState := mkWalk {
  remainingSize : number;
  totalCost : number;
  filledSize : number;
  worstPrice : number;
  fills : list Fill.t
}.

(** One pass of the body of [for (const level of levels)], once the
    [break] test has let it through. *)
Definition fillLevel (level : OrderBookLevel.t) (st : WalkState) : WalkState :=
  let fillAtLevel := Qmin (remainingSize st) (OrderBookLevel.size level) in
  if Qgtb fillAtLevel 0 then
    let costAtLevel := fillAtLevel * OrderBookLevel.price level in
    let filled := filledSize st + fillAtLevel in
    {| remainingSize := remainingSize st - fillAtLevel;
       totalCost := totalCost st + costAtLevel;
       filledSize := filled;
       worstPrice := OrderBookLevel.price level;
       fills := fills st ++ [Fill.mk (OrderBookLevel.price level) fillAtLevel filled] |}
  else st.

(** The loop: [if (remainingSize <= 0) break;] then the body. *)
Fixpoint walk (levels : list OrderBookLevel.t) (st : WalkState) : WalkState :=
  match levels with
  | [] => st
  | level :: rest =>
      if Qle_bool (remainingSize st) 0 then st
      else walk rest (fillLevel level st)
  end.

Definition createEmptyResult (input : TradeInput.t) : ExecutionResult.t :=
  {| ExecutionResult.side := TradeInput.side input;
     ExecutionResult.outcome := TradeInput.outcome input;
     ExecutionResult.requestedSize := TradeInput.size input;
     ExecutionResult.filledSize := 0;
     ExecutionResult.averagePrice := 0;
     ExecutionResult.totalCost := 0;
     ExecutionResult.bestPrice := 0;
     ExecutionResult.worstPrice := 0;
     ExecutionResult.slippageFromBest := 0;
     ExecutionResult.slippagePercent := 0;
     ExecutionResult.fills := [];
     ExecutionResult.partialFill := true;
     ExecutionResult.remainingSize := TradeInput.size input |}.

(** The side of the book an order consumes: asks for BUY, bids for SELL. *)
Definition selectedLevels (orderBook : OrderBook.t) (side : TradeSide)
  : list OrderBookLevel.t :=
  match side with
  | BUY => OrderBook.asks orderBook
  | SELL => OrderBook.bids orderBook
  end.

Definition calculateExecutionPrice (orderBook : OrderBook.t) (input : TradeInput.t)
  : ExecutionResult.t :=
  let side := TradeInput.side input in
  let outcome := TradeInput.outcome input in
  let size := TradeInput.size input in
  let levels := selectedLevels orderBook side in
  match levels with
  | [] => createEmptyResult input
  | first :: _ =>
      let bestPrice := OrderBookLevel.price first in
      let st := walk levels (mkWalk size 0 0 bestPrice []) in
      let averagePrice :=
        if Qgtb (filledSize st) 0 then totalCost st / filledSize st else 0 in
      let slippageFromBest :=
        match side with
        | BUY => averagePrice - bestPrice
        | SELL => bestPrice - averagePrice
        end in
      let slippagePercent :=
        if Qgtb bestPrice 0 then (slippageFromBest / bestPrice) * 100 else 0 in
      {| ExecutionResult.side := side;
         ExecutionResult.outcome := outcome;
         ExecutionResult.requestedSize := size;
         ExecutionResult.filledSize := filledSize st;
         ExecutionResult.averagePrice := averagePrice;
         ExecutionResult.totalCost := totalCost st;
         ExecutionResult.bestPrice := bestPrice;
         ExecutionResult.worstPrice := worstPrice st;
         ExecutionResult.slippageFromBest := slippageFromBest;
         ExecutionResult.slippagePercent := slippagePercent;
         ExecutionResult.fills := fills st;
         ExecutionResult.partialFill := Qgtb (remainingSize st) 0;
         ExecutionResult.remainingSize := remainingSize st |}
  end.

(** [levels.reduce((sum, level) => sum + level.size, 0)], the depth
    totals of [analyzeOrderBook]. *)
Definition depthTotal (levels : list OrderBookLevel.t) : number :=
  fold_left (fun sum level => sum + OrderBookLevel.size level) levels 0.

Definition getExecutionPrice (orderBook : OrderBook.t) (side : TradeSide)
    (size : number) : number :=
  ExecutionResult.averagePrice
    (calculateExecutionPrice orderBook (TradeInput.mk side YES size)).

Inductive Direction := up | down.

(** The scan of [calculateSizeToMovePrice]: sizes are added until a
    level's price has reached the target. *)
Fixpoint sizeBeforeTarget (direction : Direction) (targetPrice : number)
    (levels : list OrderBookLevel.t) (sizeNeeded : number) : number :=
  match levels with
  | [] => sizeNeeded
  | level :: rest =>
      let priceReached :=
        match direction with
        | up => Qgeb (OrderBookLevel.price level) targetPrice
        | down => Qle_bool (OrderBookLevel.price level) targetPrice
        end in
      if priceReached then sizeNeeded
      else sizeBeforeTarget direction targetPrice rest
             (sizeNeeded + OrderBookLevel.size level)
  end.

Definition calculateSizeToMovePrice (levels : list OrderBookLevel.t)
    (percentMove : number) (direction : Direction) : number :=
  match levels with
  | [] => 0
  | first :: _ =>
      let startPrice := OrderBookLevel.price first in
      let targetPrice :=
        match direction with
        | up => startPrice * (1 + percentMove)
        | down => startPrice * (1 - percentMove)
        end in
      sizeBeforeTarget direction targetPrice levels 0
  end.

Record OrderBookAnalysis := mkAnalysis {
  bestBid : number;
  bestAsk : number;
  spread : number;
  spreadPercent : number;
  midpoint : number;
  bidDepthTotal : number;
  askDepthTotal : number;
  depthImbalance : number;
  sizeToMoveBid1Percent : number;
  sizeToMoveAsk1Percent : number;
  levelCount : number;
  averageLevelSize : number
}.

Definition lengthQ {A : Type} (l : list A) : number :=
  inject_Z (Z.of_nat (List.length l)).

Definition analyzeOrderBook (orderBook : OrderBook.t) : OrderBookAnalysis :=
  let bids := OrderBook.bids orderBook in
  let asks := OrderBook.asks orderBook in
  let bestBid := match bids with b :: _ => OrderBookLevel.price b | [] => 0 end in
  let bestAsk := match asks with a :: _ => OrderBookLevel.price a | [] => 1 end in
  let spread := bestAsk - bestBid in
  let midpoint := (bestBid + bestAsk) / 2 in
  let bidDepthTotal := depthTotal bids in
  let askDepthTotal := depthTotal asks in
  let totalDepth := bidDepthTotal + askDepthTotal in
  let depthImbalance :=
    if Qgtb totalDepth 0 then (bidDepthTotal - askDepthTotal) / totalDepth else 0 in
  let levelCount := lengthQ bids + lengthQ asks in
  {| bestBid := bestBid;
     bestAsk := bestAsk;
     spread := spread;
     spreadPercent := if Qgtb midpoint 0 then (spread / midpoint) * 100 else 0;
     midpoint := midpoint;
     bidDepthTotal := bidDepthTotal;
     askDepthTotal := askDepthTotal;
     depthImbalance := depthImbalance;
     sizeToMoveBid1Percent := calculateSizeToMovePrice bids 0.01 down;
     sizeToMoveAsk1Percent := calculateSizeToMovePrice asks 0.01 up;
     levelCount := levelCount;
     averageLevelSize := totalDepth / Qmax levelCount 1 |}.

Module MaxSizeResult.
Record t := mk { maxSize : number; priceAtMax : number }.
End MaxSizeResult.

(** The scan of [findMaxSizeWithinSlippage]: levels are added while their
    price does not exceed the threshold. *)
Fixpoint scanWithinThreshold (side : TradeSide) (priceThreshold : number)
    (levels : list OrderBookLevel.t) (cumulativeSize lastPrice : number)
  : MaxSizeResult.t :=
  match levels with
  | [] => MaxSizeResult.mk cumulativeSize lastPrice
  | level :: rest =>
      let exceedsThreshold :=
        match side with
        | BUY => Qgtb (OrderBookLevel.price level) priceThreshold
        | SELL => Qltb (OrderBookLevel.price level) priceThreshold
        end in
      if exceedsThreshold then MaxSizeResult.mk cumulativeSize lastPrice
      else scanWithinThreshold side priceThreshold rest
             (cumulativeSize + OrderBookLevel.size level) (OrderBookLevel.price level)
  end.

Definition findMaxSizeWithinSlippage (orderBook : OrderBook.t) (side : TradeSide)
    (maxSlippagePercent : number) : MaxSizeResult.t :=
  let levels := selectedLevels orderBook side in
  match levels with
  | [] => MaxSizeResult.mk 0 0
  | first :: _ =>
      let bestPrice := OrderBookLevel.price first in
      let maxPriceMove := bestPrice * (maxSlippagePercent / 100) in
      let priceThreshold :=
        match side with
        | BUY => bestPrice + maxPriceMove
        | SELL => bestPrice - maxPriceMove
        end in
      scanWithinThreshold side priceThreshold levels 0 bestPrice
  end.

Module PriceAtSize.
Record t := mk { size : number; price : number; slippagePercent : number }.
End PriceAtSize.


End ExecutionEngine.

(** ** payoff-calculator.ts *)

Module PayoffCalculator.

Record ResolutionPnL := mkPnL { pnlIfYes : number; pnlIfNo : number }.

Definition calculateResolutionPnL (side : TradeSide) (outcome : Outcome)
    (contracts price : number) : ResolutionPnL :=
  match side, outcome with
  | BUY, YES => mkPnL ((1 - price) * contracts) (- price * contracts)
  | BUY, NO => mkPnL (- price * contracts) ((1 - price) * contracts)
  | SELL, YES => mkPnL ((price - 1) * contracts) (price * contracts)
  | SELL, NO => mkPnL (price * contracts) ((price - 1) * contracts)
  end.

Definition createZeroPayoff (execution : ExecutionResult.t) : PayoffResult.t :=
  {| PayoffResult.side := ExecutionResult.side execution;
     PayoffResult.outcome := ExecutionResult.outcome execution;
     PayoffResult.contracts := 0;
     PayoffResult.entryPrice := 0;
     PayoffResult.totalCost := 0;
     PayoffResult.pnlIfYes := 0;
     PayoffResult.returnIfYes := 0;
     PayoffResult.pnlIfNo := 0;
     PayoffResult.returnIfNo := 0;
     PayoffResult.maxGain := 0;
     PayoffResult.maxLoss := 0;
     PayoffResult.capitalAtRisk := 0;
     PayoffResult.impliedProbability := 0 |}.

Definition calculatePayoff (execution : ExecutionResult.t) : PayoffResult.t :=
  let side := ExecutionResult.side execution in
  let outcome := ExecutionResult.outcome execution in
  let filledSize := ExecutionResult.filledSize execution in
  let averagePrice := ExecutionResult.averagePrice execution in
  let totalCost := ExecutionResult.totalCost execution in
  if Qeq_bool filledSize 0 then createZeroPayoff execution
  else
    let pnl := calculateResolutionPnL side outcome filledSize averagePrice in
    let capitalDeployed := Qabs totalCost in
    let returnIfYes :=
      if Qgtb capitalDeployed 0 then (pnlIfYes pnl / capitalDeployed) * 100 else 0 in
    let returnIfNo :=
      if Qgtb capitalDeployed 0 then (pnlIfNo pnl / capitalDeployed) * 100 else 0 in
    let maxGain := Qmax (pnlIfYes pnl) (pnlIfNo pnl) in
    let maxLoss := Qmin (pnlIfYes pnl) (pnlIfNo pnl) in
    let capitalAtRisk := Qabs maxLoss in
    {| PayoffResult.side := side;
       PayoffResult.outcome := outcome;
       PayoffResult.contracts := filledSize;
       PayoffResult.entryPrice := averagePrice;
       PayoffResult.totalCost := totalCost;
       PayoffResult.pnlIfYes := pnlIfYes pnl;
       PayoffResult.returnIfYes := returnIfYes;
       PayoffResult.pnlIfNo := pnlIfNo pnl;
       PayoffResult.returnIfNo := returnIfNo;
       PayoffResult.maxGain := maxGain;
       PayoffResult.maxLoss := maxLoss;
       PayoffResult.capitalAtRisk := capitalAtRisk;
       PayoffResult.impliedProbability := averagePrice |}.

Record Kelly := mkKelly { fraction : number; edge : number }.

(** The four [let] locals that the branches of [calculateKellyFraction]
    assign. *)
Record KellyTerms := mkTerms {
  winProb : number;
  loseProb : number;
  payoffIfWin : number;
  lossIfLose : number
}.

Definition kellyTerms (trueProb marketPrice : number) (side : TradeSide)
    (outcome : Outcome) : KellyTerms :=
  match side, outcome with
  | BUY, YES => mkTerms trueProb (1 - trueProb) (1 - marketPrice) marketPrice
  | BUY, NO => mkTerms (1 - trueProb) trueProb (1 - marketPrice) marketPrice
  | SELL, YES => mkTerms (1 - trueProb) trueProb marketPrice (1 - marketPrice)
  | SELL, NO => mkTerms trueProb (1 - trueProb) marketPrice (1 - marketPrice)
  end.

Definition calculateKellyFraction (trueProb marketPrice : number)
    (side : TradeSide) (outcome : Outcome) : Kelly :=
  let t := kellyTerms trueProb marketPrice side outcome in
  let b := payoffIfWin t / lossIfLose t in
  let kelly := (winProb t * b - loseProb t) / b in
  let edge := winProb t * payoffIfWin t - loseProb t * lossIfLose t in
  {| fraction := Qmax 0 kelly; edge := edge |}.

Module CombinedPayoff.
Record t := mk {
  totalCost : number;
  pnlIfYes : number;
  pnlIfNo : number;
  maxGain : number;
  maxLoss : number
}.
End CombinedPayoff.

(** The three running sums of [calculateCombinedPayoff]. *)
Definition addLeg (sums : number * number * number) (execution : ExecutionResult.t)
  : number * number * number :=
  let '(totalCost, pnlIfYes, pnlIfNo) := sums in
  let payoff := calculatePayoff execution in
  (totalCost + PayoffResult.totalCost payoff,
   pnlIfYes + PayoffResult.pnlIfYes payoff,
   pnlIfNo + PayoffResult.pnlIfNo payoff).

Definition calculateCombinedPayoff (executions : list ExecutionResult.t)
  : CombinedPayoff.t :=
  let '(totalCost, pnlIfYes, pnlIfNo) := fold_left addLeg executions (0, 0, 0) in
  {| CombinedPayoff.totalCost := totalCost;
     CombinedPayoff.pnlIfYes := pnlIfYes;
     CombinedPayoff.pnlIfNo := pnlIfNo;
     CombinedPayoff.maxGain := Qmax pnlIfYes pnlIfNo;
     CombinedPayoff.maxLoss := Qmin pnlIfYes pnlIfNo |}.

Definition calculateBreakevenProbability (side : TradeSide) (outcome : Outcome)
    (entryPrice : number) : number :=
  entryPrice.

End PayoffCalculator.

(** ** arbitrage-analyzer.ts *)

Module ArbitrageAnalyzer.
Import ExecutionEngine.

(** The [arbitrageDetails] message, without its number formatting. *)
Inductive ArbitrageDetails :=
| SameMarketA (sum edgePercent : number)
| SameMarketB (sum edgePercent : number)
| PriceDiscrepancy (yesDiffPercent noDiffPercent : number)
| NoOpportunity.

Module ApparentArbitrage.
Record t := mk {
  hasArbitrage : bool;
  arbitrageEdge : number;
  arbitrageDetails : ArbitrageDetails
}.
End ApparentArbitrage.

Definition detectApparentArbitrage (execAYes execANo execBYes execBNo : ExecutionResult.t)
  : ApparentArbitrage.t :=
  let sumA := ExecutionResult.averagePrice execAYes + ExecutionResult.averagePrice execANo in
  let sumB := ExecutionResult.averagePrice execBYes + ExecutionResult.averagePrice execBNo in
  if Qltb sumA 0.98 then
    ApparentArbitrage.mk true (1 - sumA) (SameMarketA sumA ((1 - sumA) * 100))
  else if Qltb sumB 0.98 then
    ApparentArbitrage.mk true (1 - sumB) (SameMarketB sumB ((1 - sumB) * 100))
  else
    let yesDiff :=
      Qabs (ExecutionResult.averagePrice execAYes - ExecutionResult.averagePrice execBYes) in
    let noDiff :=
      Qabs (ExecutionResult.averagePrice execANo - ExecutionResult.averagePrice execBNo) in
    if Qgtb yesDiff 0.05 || Qgtb noDiff 0.05 then
      ApparentArbitrage.mk false (Qmax yesDiff noDiff)
        (PriceDiscrepancy (yesDiff * 100) (noDiff * 100))
    else ApparentArbitrage.mk false 0 NoOpportunity.

(** The [details] message of a dominance violation. *)
Inductive DominanceDetails :=
| OverpricedA (sum overPercent : number)
| OverpricedB (sum overPercent : number)
| InvalidPrice (price : number).

Record Dominance := mkDominance {
  hasViolation : bool;
  details : option DominanceDetails
}.

Definition checkDominanceViolations (marketA marketB : MarketOrderBooks.t)
    (execAYes execANo execBYes execBNo : ExecutionResult.t) : Dominance :=
  let sumA := ExecutionResult.averagePrice execAYes + ExecutionResult.averagePrice execANo in
  let sumB := ExecutionResult.averagePrice execBYes + ExecutionResult.averagePrice execBNo in
  if Qgtb sumA 1.05 then mkDominance true (Some (OverpricedA sumA ((sumA - 1) * 100)))
  else if Qgtb sumB 1.05 then mkDominance true (Some (OverpricedB sumB ((sumB - 1) * 100)))
  else
    let prices := [ExecutionResult.averagePrice execAYes;
                   ExecutionResult.averagePrice execANo;
                   ExecutionResult.averagePrice execBYes;
                   ExecutionResult.averagePrice execBNo] in
    match find (fun price => Qltb price 0 || Qgtb price 1) prices with
    | Some price => mkDominance true (Some (InvalidPrice price))
    | None => mkDominance false None
    end.

(** The test of the binary search at size [mid]: has slippage on the two
    YES legs left some of the edge? *)
Definition edgeRemainingAt (marketA marketB : MarketOrderBooks.t)
    (initialEdge : number) (mid : Z) : number :=
  let execAYes := calculateExecutionPrice (MarketOrderBooks.yes marketA)
                    (TradeInput.mk BUY YES (inject_Z mid)) in
  let execBYes := calculateExecutionPrice (MarketOrderBooks.yes marketB)
                    (TradeInput.mk BUY YES (inject_Z mid)) in
  let totalSlippage :=
    ExecutionResult.slippagePercent execAYes + ExecutionResult.slippagePercent execBYes in
  initialEdge * 100 - totalSlippage.

(** [while (high - low > 1) { ... }] over the locals [low], [high] and
    [maxSize]; [viable mid] is the test [edgeRemaining > 0]. *)
Equations? searchLoop (viable : Z -> bool) (low high maxSize : Z) : Z
  by wf (Z.to_nat (high - low)) lt :=
  searchLoop viable low high maxSize with Z_gt_dec (high - low) 1 => {
    | left _ with viable ((low + high) / 2)%Z => {
        | true := searchLoop viable ((low + high) / 2)%Z high ((low + high) / 2)%Z;
        | false := searchLoop viable low ((low + high) / 2)%Z maxSize };
    | right _ := maxSize }.
Proof.
  all: pose proof (Z.div_mod (low + high) 2 ltac:(lia));
    pose proof (Z.mod_pos_bound (low + high) 2 ltac:(lia)); lia.
Qed.

Definition findMaxViableArbSize (marketA marketB : MarketOrderBooks.t)
    (initialEdge : number) : Z :=
  if Qle_bool initialEdge 0 then 0%Z
  else searchLoop (fun mid => Qgtb (edgeRemainingAt marketA marketB initialEdge mid) 0)
         0 10000 0.

Inductive BookName := A_YES | A_NO | B_YES | B_NO.
Inductive ImbalanceDirection := bid_heavy | ask_heavy.

(** The risk-signal messages, without their number formatting. *)
Inductive RiskSignal :=
| WideSpread (maxSpread : number)
| LargeTradeSize (tradeSize minDepth : number)
| Imbalanced (name : BookName) (direction : ImbalanceDirection) (imbPercent : number).

Definition generateRiskSignals (analysisAYes analysisANo analysisBYes analysisBNo
    : OrderBookAnalysis) (tradeSize : number) : list RiskSignal :=
  let maxSpread :=
    Qmax (Qmax (Qmax (spreadPercent analysisAYes) (spreadPercent analysisANo))
            (spreadPercent analysisBYes)) (spreadPercent analysisBNo) in
  let signals1 := if Qgtb maxSpread 5 then [WideSpread maxSpread] else [] in
  let depth a := bidDepthTotal a + askDepthTotal a in
  let minDepth :=
    Qmin (Qmin (Qmin (depth analysisAYes) (depth analysisANo)) (depth analysisBYes))
      (depth analysisBNo) in
  let signals2 :=
    if Qgtb tradeSize (minDepth * 0.5) then [LargeTradeSize tradeSize minDepth] else [] in
  let imbalances := [(A_YES, depthImbalance analysisAYes);
                     (A_NO, depthImbalance analysisANo);
                     (B_YES, depthImbalance analysisBYes);
                     (B_NO, depthImbalance analysisBNo)] in
  let signals3 :=
    flat_map (fun '(name, imb) =>
      if Qgtb (Qabs imb) 0.5 then
        [Imbalanced name (if Qgtb imb 0 then bid_heavy else ask_heavy) (imb * 100)]
      else []) imbalances in
  signals1 ++ signals2 ++ signals3.

Record MarketSummary := mkSummary {
  marketId : string;
  question : string;
  executionPriceYes : number;
  executionPriceNo : number;
  spreadWidth : number;
  depthAtSize : number
}.

Record MarketComparisonResult := mkComparison {
  marketA : MarketSummary;
  marketB : MarketSummary;
  priceDifferenceYes : number;
  priceDifferenceNo : number;
  apparentArbitrage : bool;
  arbitrageEdge : number;
  maxViableSize : Z;
  slippageAtSize : number;
  dominanceViolation : bool;
  dominanceDetails : option DominanceDetails;
  riskSignals : list RiskSignal
}.

Definition compareMarkets (marketA marketB : MarketOrderBooks.t) (tradeSize : number)
  : MarketComparisonResult :=
  let analysisAYes := analyzeOrderBook (MarketOrderBooks.yes marketA) in
  let analysisANo := analyzeOrderBook (MarketOrderBooks.no marketA) in
  let analysisBYes := analyzeOrderBook (MarketOrderBooks.yes marketB) in
  let analysisBNo := analyzeOrderBook (MarketOrderBooks.no marketB) in
  let execAYes := calculateExecutionPrice (MarketOrderBooks.yes marketA)
                    (TradeInput.mk BUY YES tradeSize) in
  let execANo := calculateExecutionPrice (MarketOrderBooks.no marketA)
                   (TradeInput.mk BUY NO tradeSize) in
  let execBYes := calculateExecutionPrice (MarketOrderBooks.yes marketB)
                    (TradeInput.mk BUY YES tradeSize) in
  let execBNo := calculateExecutionPrice (MarketOrderBooks.no marketB)
                   (TradeInput.mk BUY NO tradeSize) in
  let priceDifferenceYes :=
    ExecutionResult.averagePrice execAYes - ExecutionResult.averagePrice execBYes in
  let priceDifferenceNo :=
    ExecutionResult.averagePrice execANo - ExecutionResult.averagePrice execBNo in
  let arb := detectApparentArbitrage execAYes execANo execBYes execBNo in
  let dominanceCheck :=
    checkDominanceViolations marketA marketB execAYes execANo execBYes execBNo in
  let maxViableSize :=
    findMaxViableArbSize marketA marketB
      (if ApparentArbitrage.hasArbitrage arb
       then Qabs (ApparentArbitrage.arbitrageEdge arb) else 0) in
  let totalSlippage :=
    ExecutionResult.slippagePercent execAYes + ExecutionResult.slippagePercent execANo
    + ExecutionResult.slippagePercent execBYes + ExecutionResult.slippagePercent execBNo in
  let riskSignals :=
    generateRiskSignals analysisAYes analysisANo analysisBYes analysisBNo tradeSize in
  {| marketA :=
       mkSummary (MarketOrderBooks.marketId marketA) (MarketOrderBooks.question marketA)
         (ExecutionResult.averagePrice execAYes) (ExecutionResult.averagePrice execANo)
         (spread analysisAYes)
         (Qmin (ExecutionResult.filledSize execAYes) (ExecutionResult.filledSize execANo));
     marketB :=
       mkSummary (MarketOrderBooks.marketId marketB) (MarketOrderBooks.question marketB)
         (ExecutionResult.averagePrice execBYes) (ExecutionResult.averagePrice execBNo)
         (spread analysisBYes)
         (Qmin (ExecutionResult.filledSize execBYes) (ExecutionResult.filledSize execBNo));
     priceDifferenceYes := priceDifferenceYes;
     priceDifferenceNo := priceDifferenceNo;
     apparentArbitrage := ApparentArbitrage.hasArbitrage arb;
     arbitrageEdge := ApparentArbitrage.arbitrageEdge arb;
     maxViableSize := maxViableSize;
     slippageAtSize := totalSlippage;
     dominanceViolation := hasViolation dominanceCheck;
     dominanceDetails := details dominanceCheck;
     riskSignals := riskSignals |}.

(** The [signal] message of [analyzeMarketEfficiency], without its number
    formatting. *)
Inductive EfficiencySignal :=
| Underpriced (profitPercent : number)
| Overpriced (vigPercent : number)
| EfficientlyPriced.

Module MarketEfficiency.
Record t := mk {
  yesPrice : number;
  noPrice : number;
  sum : number;
  vigorish : number;
  isEfficient : bool;
  signal : EfficiencySignal
}.
End MarketEfficiency.

Definition analyzeMarketEfficiency (market : MarketOrderBooks.t) (tradeSize : number)
  : MarketEfficiency.t :=
  let execYes := calculateExecutionPrice (MarketOrderBooks.yes market)
                   (TradeInput.mk BUY YES tradeSize) in
  let execNo := calculateExecutionPrice (MarketOrderBooks.no market)
                  (TradeInput.mk BUY NO tradeSize) in
  let sum := ExecutionResult.averagePrice execYes + ExecutionResult.averagePrice execNo in
  let vigorish := (sum - 1) * 100 in
  let '(signal, isEfficient) :=
    if Qltb sum 0.98 then (Underpriced ((1 - sum) * 100), false)
    else if Qgtb sum 1.02 then (Overpriced vigorish, true)
    else (EfficientlyPriced, true) in
  {| MarketEfficiency.yesPrice := ExecutionResult.averagePrice execYes;
     MarketEfficiency.noPrice := ExecutionResult.averagePrice execNo;
     MarketEfficiency.sum := sum;
     MarketEfficiency.vigorish := vigorish;
     MarketEfficiency.isEfficient := isEfficient;
     MarketEfficiency.signal := signal |}.

Module ArbExhaustion.
Record t := mk { exhaustionSize : number; edgeAtExhaustion : number }.
End ArbExhaustion.

(** The edge, in percent, that the slippage of the two books leaves at a
    size. *)
Definition exhaustionEdgeAt (orderBookA orderBookB : OrderBook.t) (side : TradeSide)
    (initialEdge size : number) : number :=
  let execA := calculateExecutionPrice orderBookA (TradeInput.mk side YES size) in
  let execB := calculateExecutionPrice orderBookB (TradeInput.mk side YES size) in
  let slippage :=
    ExecutionResult.slippagePercent execA + ExecutionResult.slippagePercent execB in
  initialEdge * 100 - slippage.

(** [for (const size of testSizes)] with its [break]. *)
Fixpoint exhaustionScan (orderBookA orderBookB : OrderBook.t) (side : TradeSide)
    (initialEdge : number) (sizes : list number) (lastViableSize lastEdge : number)
  : ArbExhaustion.t :=
  match sizes with
  | [] => ArbExhaustion.mk lastViableSize lastEdge
  | size :: rest =>
      let edgeRemaining := exhaustionEdgeAt orderBookA orderBookB side initialEdge size in
      if Qgtb edgeRemaining 0
      then exhaustionScan orderBookA orderBookB side initialEdge rest size
             (edgeRemaining / 100)
      else ArbExhaustion.mk lastViableSize lastEdge
  end.

Definition testSizes : list number := [10; 50; 100; 250; 500; 1000; 2500; 5000; 10000].

Definition findArbExhaustionPoint (orderBookA orderBookB : OrderBook.t)
    (side : TradeSide) (initialEdge : number) : ArbExhaustion.t :=
  if Qle_bool initialEdge 0 then ArbExhaustion.mk 0 0
  else exhaustionScan orderBookA orderBookB side initialEdge testSizes 0 initialEdge.

End ArbitrageAnalyzer.

(** ** types.ts *)

Inductive Platform := POLYMARKET | KALSHI | PREDICTIT | METACULUS.

Module PriceMovement.
Record t := mk {
  platform : Platform;
  beforePrice : number;
  afterPrice : number;
  change : number
}.
End PriceMovement.

Module NewsCorrelation.
Record t := mk {
  title : string;
  source : string;
  url : string;
  publishedAt : Z;
  sentiment : number;
  relevanceScore : number;
  priceMovement : option PriceMovement.t
}.
End NewsCorrelation.

Module NormalizedMarket.
Record t := mk {
  externalId : string;
  platform : Platform;
  question : string;
  description : option string;
  category : string;
  yesProbability : number;
  noProbability : number;
  volume : option number;
  liquidity : option number;
  endDate : option Z;
  lastUpdated : Z
}.
End NormalizedMarket.

Module MarketQuote.
Record t := mk {
  platform : Platform;
  yesProbability : number;
  volume : option number;
  liquidity : option number
}.
End MarketQuote.

Module DiscrepancyResult.
Record t := mk {
  eventSlug : string;
  eventTitle : string;
  markets : list MarketQuote.t;
  maxSpread : number;
  spreadPercent : number;
  confidence : number;
  likelyDrivers : list NewsCorrelation.t
}.
End DiscrepancyResult.

(** ** Array.prototype.sort

    The sort of an array is stable; with a comparator that orders the
    elements consistently its result is the one of this insertion sort,
    where [before x y] says that the comparator does not put [x] after
    [y]. *)

Section ArraySort.
Context {A : Type} (before : A -> A -> bool).

Fixpoint insertSorted (x : A) (l : list A) : list A :=
  match l with
  | [] => [x]
  | y :: rest => if before x y then x :: y :: rest else y :: insertSorted x rest
  end.

Definition arraySort (l : list A) : list A := fold_right insertSorted [] l.
End ArraySort.

(** ** discrepancy-engine.ts *)

Module DiscrepancyEngine.

Record MarketGroup := mkGroup {
  eventSlug : string;
  eventTitle : string;
  markets : list NormalizedMarket.t
}.

Definition MIN_SPREAD_THRESHOLD : number := 0.03.
Definition HIGH_CONFIDENCE_THRESHOLD : number := 0.05.

(** *** generateSlug, for questions written in ASCII *)

Definition toLowerCase (c : ascii) : ascii :=
  let n := nat_of_ascii c in
  if (65 <=? n)%nat && (n <=? 90)%nat then ascii_of_nat (n + 32) else c.

(** The characters that [/[^a-z0-9\s]/g] leaves in place. *)
Definition keptBySlug (c : ascii) : bool :=
  let n := nat_of_ascii c in
  ((97 <=? n)%nat && (n <=? 122)%nat)
  || ((48 <=? n)%nat && (n <=? 57)%nat)
  || ((9 <=? n)%nat && (n <=? 13)%nat)
  || (n =? 32)%nat.

(** [split(" ")]: [word] holds the characters of the current piece,
    last one first. *)
Fixpoint splitOnSpace (cs : list ascii) (word : list ascii) : list string :=
  match cs with
  | [] => [string_of_list_ascii (rev word)]
  | c :: rest =>
      if Ascii.eqb c " " then string_of_list_ascii (rev word) :: splitOnSpace rest []
      else splitOnSpace rest (c :: word)
  end.

Definition generateSlug (question : string) : string :=
  let lowered := List.map toLowerCase (list_ascii_of_string question) in
  let cleaned := List.filter keptBySlug lowered in
  let words := splitOnSpace cleaned [] in
  let long := List.filter (fun w => (3 <? String.length w)%nat) words in
  let sorted := arraySort String.leb long in
  String.substring 0 100 (String.concat "-" sorted).

(** *** groupSimilarMarkets: the [Map] keeps its keys in insertion order *)

Definition GroupMap := list (string * MarketGroup).

Definition mapHas (slug : string) (groups : GroupMap) : bool :=
  existsb (fun kv => String.eqb (fst kv) slug) groups.

Fixpoint mapSet (slug : string) (g : MarketGroup) (groups : GroupMap) : GroupMap :=
  match groups with
  | [] => [(slug, g)]
  | (k, v) :: rest =>
      if String.eqb k slug then (k, g) :: rest else (k, v) :: mapSet slug g rest
  end.

(** [groups.get(slug)!.markets.push(market)]. *)
Fixpoint pushMarket (slug : string) (market : NormalizedMarket.t) (groups : GroupMap)
  : GroupMap :=
  match groups with
  | [] => []
  | (k, v) :: rest =>
      if String.eqb k slug
      then (k, mkGroup (eventSlug v) (eventTitle v) (markets v ++ [market])) :: rest
      else (k, v) :: pushMarket slug market rest
  end.

Definition addMarket (groups : GroupMap) (market : NormalizedMarket.t) : GroupMap :=
  let slug := generateSlug (NormalizedMarket.question market) in
  let groups' :=
    if negb (mapHas slug groups)
    then mapSet slug (mkGroup slug (NormalizedMarket.question market) []) groups
    else groups in
  pushMarket slug market groups'.

Definition groupSimilarMarkets (markets0 : list NormalizedMarket.t) : list MarketGroup :=
  let groups := fold_left addMarket markets0 [] in
  List.filter (fun g => (1 <? List.length (markets g))%nat) (List.map snd groups).

(** *** calculateConfidence *)

Definition positive (x : option number) : bool :=
  match x with
  | Some v => Qgtb v 0
  | None => false
  end.

Definition orZero (x : option number) : number :=
  match x with
  | Some v => v
  | None => 0
  end.

Definition calculateConfidence (markets0 : list NormalizedMarket.t) (spread : number)
  : number :=
  let c1 :=
    if Qgeb spread HIGH_CONFIDENCE_THRESHOLD then 0.4
    else if Qgeb spread MIN_SPREAD_THRESHOLD then 0.2
    else 0 in
  let marketsWithLiquidity :=
    List.filter (fun m => positive (NormalizedMarket.liquidity m)) markets0 in
  let c2 :=
    if (List.length marketsWithLiquidity =? List.length markets0)%nat then
      let avgLiquidity :=
        fold_left (fun sum m => sum + orZero (NormalizedMarket.liquidity m))
          marketsWithLiquidity 0
        / ExecutionEngine.lengthQ marketsWithLiquidity in
      c1 + 0.2 + (if Qgtb avgLiquidity 100000 then 0.2
                  else if Qgtb avgLiquidity 10000 then 0.1 else 0)
    else c1 in
  let marketsWithVolume :=
    List.filter (fun m => positive (NormalizedMarket.volume m)) markets0 in
  let c3 :=
    if (0 <? List.length marketsWithVolume)%nat then
      let avgVolume :=
        fold_left (fun sum m => sum + orZero (NormalizedMarket.volume m))
          marketsWithVolume 0
        / ExecutionEngine.lengthQ marketsWithVolume in
      c2 + (if Qgtb avgVolume 1000000 then 0.2
            else if Qgtb avgVolume 100000 then 0.1 else 0)
    else c2 in
  Qmin 1 c3.

(** *** analyzeGroup and detectDiscrepancies

    The news collaborator is a parameter: [searchNews] gives the items
    that [newsService.searchNews] answers for a query. *)

Section WithNews.
Variable searchNews : string -> list NewsCorrelation.t.

(** [Math.min(...xs)] and [Math.max(...xs)] of a non-empty array. *)
Definition minOf (x : number) (xs : list number) : number := fold_left Qmin xs x.
Definition maxOf (x : number) (xs : list number) : number := fold_left Qmax xs x.

(** With no market at all the source computes the spread
    [-Infinity - Infinity], which is under the threshold: [null]. *)
Definition analyzeGroup (group : MarketGroup) : option DiscrepancyResult.t :=
  let yesPrices := List.map NormalizedMarket.yesProbability (markets group) in
  match yesPrices with
  | [] => None
  | y :: ys =>
      let minYes := minOf y ys in
      let maxYes := maxOf y ys in
      let spread := maxYes - minYes in
      if Qltb spread MIN_SPREAD_THRESHOLD then None
      else
        let confidence := calculateConfidence (markets group) spread in
        let news := searchNews (eventTitle group) in
        Some {| DiscrepancyResult.eventSlug := eventSlug group;
                DiscrepancyResult.eventTitle := eventTitle group;
                DiscrepancyResult.markets :=
                  List.map (fun m =>
                    MarketQuote.mk (NormalizedMarket.platform m)
                      (NormalizedMarket.yesProbability m)
                      (NormalizedMarket.volume m)
                      (NormalizedMarket.liquidity m)) (markets group);
                DiscrepancyResult.maxSpread := spread;
                DiscrepancyResult.spreadPercent :=
                  (spread / ((maxYes + minYes) / 2)) * 100;
                DiscrepancyResult.confidence := confidence;
                DiscrepancyResult.likelyDrivers := firstn 3 news |}
  end.

(** The [for (const group of groups)] loop, pushing onto [discrepancies]. *)
Fixpoint collect (groups : list MarketGroup) (discrepancies : list DiscrepancyResult.t)
  : list DiscrepancyResult.t :=
  match groups with
  | [] => discrepancies
  | group :: rest =>
      if (List.length (markets group) <? 2)%nat then collect rest discrepancies
      else
        match analyzeGroup group with
        | Some analysis =>
            if Qgeb (DiscrepancyResult.maxSpread analysis) MIN_SPREAD_THRESHOLD
            then collect rest (discrepancies ++ [analysis])
            else collect rest discrepancies
        | None => collect rest discrepancies
        end
  end.

(** The comparator [(a, b) => b.maxSpread - a.maxSpread] does not put
    [a] after [b] when [b.maxSpread - a.maxSpread <= 0]. *)
Definition bySpreadDescending (a b : DiscrepancyResult.t) : bool :=
  Qle_bool (DiscrepancyResult.maxSpread b - DiscrepancyResult.maxSpread a) 0.

Definition detectDiscrepancies (markets0 : list NormalizedMarket.t)
  : list DiscrepancyResult.t :=
  let groups := groupSimilarMarkets markets0 in
  arraySort bySpreadDescending (collect groups []).
End WithNews.

Module ArbitrageOpportunity.
Record t := mk {
  opportunityExists : bool;
  theoreticalReturn : number;
  confidence : number
}.
End ArbitrageOpportunity.



End DiscrepancyEngine.

(** ** clob-client.ts

    The levels of a CLOB response once [parseFloat] has read their
    [price] and [size] strings: [fetchOrderBook] drops the levels without
    size and sorts the rest, bids highest first and asks lowest first. *)

Module ClobClient.

Module OrderBookResponse.
Record t := mk {
  market : string;
  asset_id : string;
  timestamp : Z;
  bids : list OrderBookLevel.t;
  asks : list OrderBookLevel.t
}.
End OrderBookResponse.

(** [(a, b) => b.price - a.price] does not put [a] after [b]. *)
Definition bidBefore (a b : OrderBookLevel.t) : bool :=
  Qle_bool (OrderBookLevel.price b - OrderBookLevel.price a) 0.

(** [(a, b) => a.price - b.price] does not put [a] after [b]. *)
Definition askBefore (a b : OrderBookLevel.t) : bool :=
  Qle_bool (OrderBookLevel.price a - OrderBookLevel.price b) 0.

Definition hasSize (level : OrderBookLevel.t) : bool :=
  Qgtb (OrderBookLevel.size level) 0.

Definition fetchOrderBook (data : OrderBookResponse.t) : OrderBook.t :=
  let bids := arraySort bidBefore (List.filter hasSize (OrderBookResponse.bids data)) in
  let asks := arraySort askBefore (List.filter hasSize (OrderBookResponse.asks data)) in
  {| OrderBook.bids := bids;
     OrderBook.asks := asks;
     OrderBook.timestamp := OrderBookResponse.timestamp data;
     OrderBook.tokenId := OrderBookResponse.asset_id data;
     OrderBook.marketId := OrderBookResponse.market data |}.

End ClobClient.

(** ** kalshi.ts *)

Module KalshiService.

Module KalshiMarket.
Record t := mk {
  ticker : string;
  title : string;
  subtitle : string;
  yes_bid : number;
  yes_ask : number;
  no_bid : number;
  no_ask : number;
  volume : number;
  open_interest : number;
  close_time : option Z;
  category : string;
  status : string
}.
End KalshiMarket.

(** [normalizeCategory] looks the category up in a JavaScript object and
    [new Date()] reads the clock: both are parameters here. *)
Definition normalizeMarket (normalizeCategory : string -> string) (now : Z)
    (market : KalshiMarket.t) : NormalizedMarket.t :=
  let midYes := (KalshiMarket.yes_bid market + KalshiMarket.yes_ask market) / 2 / 100 in
  let midNo := (KalshiMarket.no_bid market + KalshiMarket.no_ask market) / 2 / 100 in
  {| NormalizedMarket.externalId := KalshiMarket.ticker market;
     NormalizedMarket.platform := KALSHI;
     NormalizedMarket.question := KalshiMarket.title market;
     NormalizedMarket.description := Some (KalshiMarket.subtitle market);
     NormalizedMarket.category := normalizeCategory (KalshiMarket.category market);
     NormalizedMarket.yesProbability := midYes;
     NormalizedMarket.noProbability := midNo;
     NormalizedMarket.volume := Some (KalshiMarket.volume market);
     NormalizedMarket.liquidity := Some (KalshiMarket.open_interest market);
     NormalizedMarket.endDate := KalshiMarket.close_time market;
     NormalizedMarket.lastUpdated := now |}.

(** The [filter] and [map] of [fetchMarkets] over the markets of a
    response. *)
Definition fetchMarkets (normalizeCategory : string -> string) (now : Z)
    (markets : list KalshiMarket.t) : list NormalizedMarket.t :=
  List.map (normalizeMarket normalizeCategory now)
    (List.filter (fun market => String.eqb (KalshiMarket.status market) "open") markets).

End KalshiService.

(** * Vocabulary of the statements *)

Module Vocabulary.
Import ExecutionEngine.

(** Asks as the adapter delivers them: lowest price first. *)
Fixpoint ascendingb (levels : list OrderBookLevel.t) : bool :=
  match levels with
  | a :: (b :: _) as rest =>
      Qle_bool (OrderBookLevel.price a) (OrderBookLevel.price b) && ascendingb rest
  | _ => true
  end.

(** Bids as the adapter delivers them: highest price first. *)
Fixpoint descendingb (levels : list OrderBookLevel.t) : bool :=
  match levels with
  | a :: (b :: _) as rest =>
      Qle_bool (OrderBookLevel.price b) (OrderBookLevel.price a) && descendingb rest
  | _ => true
  end.

Definition allSizesPositive (levels : list OrderBookLevel.t) : bool :=
  forallb (fun l => Qgtb (OrderBookLevel.size l) 0) levels.

Definition allSizesNonneg (levels : list OrderBookLevel.t) : bool :=
  forallb (fun l => Qle_bool 0 (OrderBookLevel.size l)) levels.




(** Sum of the sizes of a side of the book. *)
Fixpoint sumSizes (levels : list OrderBookLevel.t) : number :=
  match levels with
  | [] => 0
  | level :: rest => OrderBookLevel.size level + sumSizes rest
  end.

(** The start of the walk: nothing filled, the whole size remaining. *)
Definition initialWalk (size bestPrice : number) : WalkState :=
  mkWalk size 0 0 bestPrice [].

(** Two execution results that differ at most in the echoed outcome. *)
Definition agreeExceptOutcome (r1 r2 : ExecutionResult.t) : Prop :=
  ExecutionResult.side r1 = ExecutionResult.side r2
  /\ ExecutionResult.requestedSize r1 = ExecutionResult.requestedSize r2
  /\ ExecutionResult.filledSize r1 = ExecutionResult.filledSize r2
  /\ ExecutionResult.averagePrice r1 = ExecutionResult.averagePrice r2
  /\ ExecutionResult.totalCost r1 = ExecutionResult.totalCost r2
  /\ ExecutionResult.bestPrice r1 = ExecutionResult.bestPrice r2
  /\ ExecutionResult.worstPrice r1 = ExecutionResult.worstPrice r2
  /\ ExecutionResult.slippageFromBest r1 = ExecutionResult.slippageFromBest r2
  /\ ExecutionResult.slippagePercent r1 = ExecutionResult.slippagePercent r2
  /\ ExecutionResult.fills r1 = ExecutionResult.fills r2
  /\ ExecutionResult.partialFill r1 = ExecutionResult.partialFill r2
  /\ ExecutionResult.remainingSize r1 = ExecutionResult.remainingSize r2.

(** The test of the binary search, as a proposition: at size [k] the
    edge, in percent, exceeds the slippage of the two YES legs. *)
Definition viableAt (marketA marketB : MarketOrderBooks.t) (initialEdge : number)
    (k : Z) : Prop :=
  0 < ArbitrageAnalyzer.edgeRemainingAt marketA marketB initialEdge k.

(** [m] is the largest integer size in [0, 10000] that is viable. *)
Definition largestViable (marketA marketB : MarketOrderBooks.t) (initialEdge : number)
    (m : Z) : Prop :=
  (0 <= m <= 10000)%Z
  /\ viableAt marketA marketB initialEdge m
  /\ forall k, (0 <= k <= 10000)%Z -> viableAt marketA marketB initialEdge k -> (k <= m)%Z.

(** The reading of [maxViableSize] that takes "an edge was found" to mean
    that the returned [arbitrageEdge] is positive. *)
Definition maxViableSizeIsLargest (marketA marketB : MarketOrderBooks.t)
    (tradeSize : number) : Prop :=
  let r := ArbitrageAnalyzer.compareMarkets marketA marketB tradeSize in
  (0 < ArbitrageAnalyzer.arbitrageEdge r ->
   largestViable marketA marketB (ArbitrageAnalyzer.arbitrageEdge r)
     (ArbitrageAnalyzer.maxViableSize r))
  /\ (~ 0 < ArbitrageAnalyzer.arbitrageEdge r ->
      ArbitrageAnalyzer.maxViableSize r = 0%Z).

(** Every quoted YES probability lies in [0,1]. *)
Definition probabilitiesInRange (markets0 : list NormalizedMarket.t) : bool :=
  forallb (fun m => Qle_bool 0 (NormalizedMarket.yesProbability m)
                    && Qle_bool (NormalizedMarket.yesProbability m) 1) markets0.

(** The per-platform quote that a discrepancy keeps of a market. *)
Definition quoteOf (m : NormalizedMarket.t) : MarketQuote.t :=
  MarketQuote.mk (NormalizedMarket.platform m) (NormalizedMarket.yesProbability m)
    (NormalizedMarket.volume m) (NormalizedMarket.liquidity m).

(** An entry of the group map is well formed with respect to the input:
    it is filed under its own slug, and its markets are input markets
    whose question has that slug. *)
Definition entryOf (input : list NormalizedMarket.t)
    (kv : string * DiscrepancyEngine.MarketGroup) : Prop :=
  DiscrepancyEngine.eventSlug (snd kv) = fst kv
  /\ Forall (fun m => In m input
                     /\ DiscrepancyEngine.generateSlug (NormalizedMarket.question m) = fst kv)
       (DiscrepancyEngine.markets (snd kv)).

(** What is claimed of one returned discrepancy. *)
Definition discrepancyOf (input : list NormalizedMarket.t) (d : DiscrepancyResult.t)
  : Prop :=
  0.03 <= DiscrepancyResult.maxSpread d
  /\ 0 <= DiscrepancyResult.maxSpread d
  /\ DiscrepancyResult.maxSpread d <= 1
  /\ (2 <= List.length (DiscrepancyResult.markets d))%nat
  /\ Forall (fun q => exists m,
               In m input
               /\ DiscrepancyEngine.generateSlug (NormalizedMarket.question m)
                  = DiscrepancyResult.eventSlug d
               /\ q = quoteOf m)
       (DiscrepancyResult.markets d).

(** Highest spread first. *)
Definition spreadDescending (a b : DiscrepancyResult.t) : Prop :=
  DiscrepancyResult.maxSpread b <= DiscrepancyResult.maxSpread a.

(** Every price of a side lies in [0,1]. *)
Definition pricesInUnit (levels : list OrderBookLevel.t) : bool :=
  forallb (fun l => Qle_bool 0 (OrderBookLevel.price l)
                    && Qle_bool (OrderBookLevel.price l) 1) levels.



(** The side an order consumes is as the adapter delivers it: sorted
    towards worse prices, with positive sizes. *)
Definition sideWellFormed (orderBook : OrderBook.t) (side : TradeSide) : bool :=
  match side with
  | BUY => ascendingb (OrderBook.asks orderBook)
           && allSizesPositive (OrderBook.asks orderBook)
  | SELL => descendingb (OrderBook.bids orderBook)
            && allSizesPositive (OrderBook.bids orderBook)
  end.




(** A price has not yet moved by the target of [calculateSizeToMovePrice]. *)
Definition notReached (direction : ExecutionEngine.Direction) (targetPrice p : number)
  : Prop :=
  match direction with
  | ExecutionEngine.up => p < targetPrice
  | ExecutionEngine.down => targetPrice < p
  end.




Definition otherSide (side : TradeSide) : TradeSide :=
  match side with
  | BUY => SELL
  | SELL => BUY
  end.



(** The sum of the YES and NO execution prices of a market summary. *)
Definition summarySum (m : ArbitrageAnalyzer.MarketSummary) : number :=
  ArbitrageAnalyzer.executionPriceYes m + ArbitrageAnalyzer.executionPriceNo m.

(** The four ask sides that [compareMarkets] prices have prices in [0,1]. *)
Definition asksInUnit (marketA marketB : MarketOrderBooks.t) : bool :=
  pricesInUnit (OrderBook.asks (MarketOrderBooks.yes marketA))
  && pricesInUnit (OrderBook.asks (MarketOrderBooks.no marketA))
  && pricesInUnit (OrderBook.asks (MarketOrderBooks.yes marketB))
  && pricesInUnit (OrderBook.asks (MarketOrderBooks.no marketB)).

(** The test of [findArbExhaustionPoint] at a size, as a proposition. *)
Definition edgeSurvives (orderBookA orderBookB : OrderBook.t) (side : TradeSide)
    (initialEdge size : number) : Prop :=
  0 < ArbitrageAnalyzer.exhaustionEdgeAt orderBookA orderBookB side initialEdge size.


(** The quotes of a Kalshi market, in cents, are between 0 and 100. *)
Definition quotedInCents (market : KalshiService.KalshiMarket.t) : bool :=
  Qle_bool 0 (KalshiService.KalshiMarket.yes_bid market)
  && Qle_bool (KalshiService.KalshiMarket.yes_bid market) 100
  && Qle_bool 0 (KalshiService.KalshiMarket.yes_ask market)
  && Qle_bool (KalshiService.KalshiMarket.yes_ask market) 100.

(** The slug under which [groupSimilarMarkets] files a market, and the
    markets of an input filed under a slug, in the order of the input. *)
Definition slugOf (m : NormalizedMarket.t) : string :=
  DiscrepancyEngine.generateSlug (NormalizedMarket.question m).

Definition sameSlug (slug : string) (markets0 : list NormalizedMarket.t)
  : list NormalizedMarket.t :=
  List.filter (fun m => String.eqb (slugOf m) slug) markets0.

(** A group is titled by the question of its first market. *)
Definition titledByFirst (g : DiscrepancyEngine.MarketGroup) : Prop :=
  exists first rest,
    DiscrepancyEngine.markets g = first :: rest
    /\ DiscrepancyEngine.eventTitle g = NormalizedMarket.question first.

(** The test that [fetchMarkets] filters the markets of a response by. *)
Definition isOpen (market : KalshiService.KalshiMarket.t) : bool :=
  String.eqb (KalshiService.KalshiMarket.status market) "open"%string.

(** The state of the map of [groupSimilarMarkets] once the markets [done]
    have been filed: one entry per slug met, holding the markets of that
    slug in the order met. *)
Definition groupedSoFar (done : list NormalizedMarket.t)
    (groups : DiscrepancyEngine.GroupMap) : Prop :=
  NoDup (List.map fst groups)
  /\ (forall k g, In (k, g) groups ->
         DiscrepancyEngine.eventSlug g = k
         /\ DiscrepancyEngine.markets g = sameSlug k done
         /\ titledByFirst g)
  /\ (forall m, In m done -> In (slugOf m) (List.map fst groups)).

(** The words that make the slug of a question: lower case, without
    punctuation, longer than three characters, in the order written. *)
Definition slugWords (question : string) : list string :=
  List.filter (fun w => (3 <? String.length w)%nat)
    (DiscrepancyEngine.splitOnSpace
       (List.filter DiscrepancyEngine.keptBySlug
          (List.map DiscrepancyEngine.toLowerCase (list_ascii_of_string question)))
       []).

End Vocabulary.
Import Vocabulary.

(** * Sample books *)

Module Samples.

(** A book with one ask level. *)
Definition oneAsk (price size : number) : OrderBook.t :=
  OrderBook.mk [] [OrderBookLevel.mk price size] 0 "token" "market".

Definition market (yes no : OrderBook.t) : MarketOrderBooks.t :=
  MarketOrderBooks.mk "market" "question" yes no 0.

(** Two markets that quote YES ten cents apart, each with YES + NO = 1. *)
Definition apartA : MarketOrderBooks.t := market (oneAsk 0.40 1000) (oneAsk 0.60 1000).
Definition apartB : MarketOrderBooks.t := market (oneAsk 0.50 1000) (oneAsk 0.50 1000).

(** A market with YES + NO = 0.90 on deep books, next to a fair one. *)
Definition cheapA : MarketOrderBooks.t := market (oneAsk 0.40 100000) (oneAsk 0.50 100000).
Definition fairB : MarketOrderBooks.t := market (oneAsk 0.50 100000) (oneAsk 0.50 100000).

(** The same cheap market on books of two levels. *)
Definition twoAsks : OrderBook.t :=
  OrderBook.mk [] [OrderBookLevel.mk 0.40 50; OrderBookLevel.mk 0.42 100]
    0 "token" "market".
Definition steppedA : MarketOrderBooks.t := market twoAsks (oneAsk 0.55 1000).
Definition steppedB : MarketOrderBooks.t := market twoAsks (oneAsk 0.60 1000).

(** Quotes of two events on two platforms each, and one event quoted
    once. *)
Definition quote (platform : Platform) (question : string) (yes : number)
  : NormalizedMarket.t :=
  NormalizedMarket.mk "id" platform question None "Crypto" yes (1 - yes)
    (Some 250000) (Some 20000) None 0.

Definition quotes : list NormalizedMarket.t :=
  [quote POLYMARKET "Will Bitcoin reach 100k in 2025?" 0.40;
   quote POLYMARKET "Will Ethereum flip Bitcoin?" 0.10;
   quote KALSHI "Bitcoin will reach 100k in 2025" 0.46;
   quote KALSHI "Will Ethereum flip Bitcoin" 0.20;
   quote KALSHI "Will Solana flip Ethereum" 0.05].

Definition noNews (query : string) : list NewsCorrelation.t := [].

(** A Kalshi market quoted in cents, open or closed. *)
Definition opened : string := "open".
Definition closed : string := "closed".
Definition kalshiMarket (status : string) (bid ask : number)
  : KalshiService.KalshiMarket.t :=
  KalshiService.KalshiMarket.mk "TICKER" "Will Bitcoin reach 100k in 2025?" "subtitle"
    bid ask (100 - ask) (100 - bid) 1000 500 None "crypto" status.

End Samples.

(** * Properties *)

(** ** The boolean tests *)

Lemma Qltb_true (a b : Q) : Qltb a b = true <-> a < b.
Proof.
  unfold Qltb. rewrite negb_true_iff. split.
  - intros H. apply Qnot_le_lt. intros Hle.
    apply Qle_bool_iff in Hle. congruence.
  - intros H. destruct (Qle_bool b a) eqn:E; [|reflexivity].
    apply Qle_bool_iff in E. lra.
Qed.

Lemma Qltb_false (a b : Q) : Qltb a b = false <-> b <= a.
Proof.
  unfold Qltb. rewrite negb_false_iff. apply Qle_bool_iff.
Qed.

Lemma Qgtb_true (a b : Q) : Qgtb a b = true <-> b < a.
Proof. apply Qltb_true. Qed.

Lemma Qgtb_false (a b : Q) : Qgtb a b = false <-> a <= b.
Proof. apply Qltb_false. Qed.

Lemma Qle_bool_false (a b : Q) : Qle_bool a b = false <-> b < a.
Proof.
  split.
  - intros H. apply Qnot_le_lt. intros Hle. apply Qle_bool_iff in Hle. congruence.
  - intros H. destruct (Qle_bool a b) eqn:E; [|reflexivity].
    apply Qle_bool_iff in E. lra.
Qed.

(** Case analysis on a boolean comparison, leaving the order fact in the
    context. *)
Ltac case_test :=
  match goal with
  | |- context [Qgtb ?a ?b] =>
      let E := fresh "E" in
      destruct (Qgtb a b) eqn:E;
      [apply Qgtb_true in E | apply Qgtb_false in E]
  | |- context [Qltb ?a ?b] =>
      let E := fresh "E" in
      destruct (Qltb a b) eqn:E;
      [apply Qltb_true in E | apply Qltb_false in E]
  | |- context [Qle_bool ?a ?b] =>
      let E := fresh "E" in
      destruct (Qle_bool a b) eqn:E;
      [apply Qle_bool_iff in E | apply Qle_bool_false in E]
  end.

Ltac case_min a b :=
  let H := fresh "Hmin" in
  destruct (Q.min_spec a b) as [[? H] | [? H]].

Ltac case_max a b :=
  let H := fresh "Hmax" in
  destruct (Q.max_spec a b) as [[? H] | [? H]].

(** ** The level walk *)

Section Walk.
Import ExecutionEngine.

(** What one executed pass of the loop body does to the counters. *)
Lemma fillLevel_cases (level : OrderBookLevel.t) (st : WalkState) :
  let f := Qmin (remainingSize st) (OrderBookLevel.size level) in
  (0 < f /\
   fillLevel level st =
     mkWalk (remainingSize st - f) (totalCost st + f * OrderBookLevel.price level)
       (filledSize st + f) (OrderBookLevel.price level)
       (fills st ++ [Fill.mk (OrderBookLevel.price level) f (filledSize st + f)]))
  \/ (f <= 0 /\ fillLevel level st = st).
Proof.
  unfold fillLevel; cbv zeta. case_test; [left | right]; split; auto.
Qed.

(** An invariant of the loop body is an invariant of the loop. *)
Lemma walk_invariant (P : WalkState -> Prop) :
  (forall level st, 0 < remainingSize st -> P st -> P (fillLevel level st)) ->
  forall levels st, P st -> P (walk levels st).
Proof.
  intros Hstep levels. induction levels as [|level rest IH]; intros st HP; simpl.
  - exact HP.
  - case_test; [exact HP|]. apply IH, Hstep; assumption.
Qed.



Lemma walk_filled_nonneg levels st :
  0 <= filledSize st -> 0 <= filledSize (walk levels st).
Proof.
  apply (walk_invariant (fun s => 0 <= filledSize s)).
  intros level s _ HP.
  destruct (fillLevel_cases level s) as [[Hf ->] | [_ ->]]; simpl in *; lra.
Qed.




(** The [reduce] of [analyzeOrderBook] adds up the sizes. *)
Lemma fold_sizes levels (a : number) :
  fold_left (fun sum level => sum + OrderBookLevel.size level) levels a
  == a + sumSizes levels.
Proof.
  revert a. induction levels as [|level rest IH]; intros a; simpl.
  - lra.
  - rewrite IH. lra.
Qed.

Lemma depthTotal_sum levels : depthTotal levels == sumSizes levels.
Proof. unfold depthTotal. rewrite fold_sizes. lra. Qed.

Lemma sumSizes_nonneg levels :
  Forall (fun l => 0 <= OrderBookLevel.size l) levels -> 0 <= sumSizes levels.
Proof.
  induction 1; simpl; lra.
Qed.

End Walk.

(** ** Sorted sides of the book *)

Section SortedSides.
Import ExecutionEngine.

Lemma ascendingb_sorted levels :
  ascendingb levels = true ->
  StronglySorted (fun a b => OrderBookLevel.price a <= OrderBookLevel.price b) levels.
Proof.
  induction levels as [|a rest IH]; intros H; [constructor|].
  destruct rest as [|b rest']; [repeat constructor|].
  simpl in H. apply andb_true_iff in H as [Hab Hrest].
  apply Qle_bool_iff in Hab. specialize (IH Hrest).
  constructor; [assumption|].
  inversion IH; subst. constructor; [assumption|].
  eapply Forall_impl; [|eassumption]. simpl; intros; lra.
Qed.


Lemma allSizesPositive_Forall levels :
  allSizesPositive levels = true ->
  Forall (fun l => 0 < OrderBookLevel.size l) levels.
Proof.
  unfold allSizesPositive. rewrite forallb_forall, Forall_forall.
  intros H l Hl. apply Qgtb_true, H, Hl.
Qed.

Lemma allSizesNonneg_Forall levels :
  allSizesNonneg levels = true ->
  Forall (fun l => 0 <= OrderBookLevel.size l) levels.
Proof.
  unfold allSizesNonneg. rewrite forallb_forall, Forall_forall.
  intros H l Hl. apply Qle_bool_iff, H, Hl.
Qed.


End SortedSides.

(** ** Two orders on one side of the book *)

Section TwoSizes.
Import ExecutionEngine.

Lemma walk_done levels st : remainingSize st <= 0 -> walk levels st = st.
Proof.
  destruct levels; simpl; [reflexivity|].
  intros H. apply Qle_bool_iff in H. rewrite H. reflexivity.
Qed.

(** A positive remaining size on a level of positive size fills. *)
Lemma fillLevel_fills level st :
  0 < remainingSize st -> 0 < OrderBookLevel.size level ->
  let f := Qmin (remainingSize st) (OrderBookLevel.size level) in
  0 < f /\ f <= remainingSize st /\ f <= OrderBookLevel.size level
  /\ (f < remainingSize st -> f == OrderBookLevel.size level)
  /\ remainingSize (fillLevel level st) == remainingSize st - f
  /\ filledSize (fillLevel level st) == filledSize st + f
  /\ totalCost (fillLevel level st) == totalCost st + f * OrderBookLevel.price level.
Proof.
  intros Hrem Hsize. cbv zeta.
  destruct (fillLevel_cases level st) as [[Hf ->] | [Hf _]]; cbv zeta in *.
  - simpl. case_min (remainingSize st) (OrderBookLevel.size level);
      repeat split; try lra.
  - exfalso. case_min (remainingSize st) (OrderBookLevel.size level); lra.
Qed.

Lemma walk_two_sizes levels : forall sj sk w,
  StronglySorted (fun a b => OrderBookLevel.price a <= OrderBookLevel.price b) levels ->
  Forall (fun l => 0 < OrderBookLevel.size l) levels ->
  Forall (fun l => w <= OrderBookLevel.price l) levels ->
  0 <= remainingSize sj -> remainingSize sj <= remainingSize sk ->
  0 <= filledSize sj -> filledSize sj <= filledSize sk ->
  totalCost sj * filledSize sk <= totalCost sk * filledSize sj ->
  totalCost sj <= w * filledSize sj ->
  (0 < remainingSize sj ->
   filledSize sj == filledSize sk /\ totalCost sj == totalCost sk) ->
  filledSize (walk levels sj) <= filledSize (walk levels sk)
  /\ totalCost (walk levels sj) * filledSize (walk levels sk)
     <= totalCost (walk levels sk) * filledSize (walk levels sj).
Proof.
  induction levels as [|level rest IH];
    intros sj sk w Hs Hpos Hw Hrj Hrjk Hfj Hfjk Hcross Hcost Hsync.
  - simpl. split; assumption.
  - inversion Hs as [|? ? Hs' Hsorted]; subst.
    inversion Hpos as [|? ? Hsize Hpos']; subst.
    inversion Hw as [|? ? Hwp Hw']; subst.
    destruct (Qlt_le_dec 0 (remainingSize sj)) as [Hgo | Hstop].
    + destruct (Hsync Hgo) as [HF HC].
      assert (Hgok : 0 < remainingSize sk) by lra.
      simpl walk.
      rewrite (proj2 (Qle_bool_false _ _) Hgo), (proj2 (Qle_bool_false _ _) Hgok).
      destruct (fillLevel_fills level sj Hgo Hsize)
        as (Hj0 & Hj1 & Hj2 & Hj3 & Hjr & Hjf & Hjc).
      destruct (fillLevel_fills level sk Hgok Hsize)
        as (Hk0 & Hk1 & Hk2 & Hk3 & Hkr & Hkf & Hkc).
      cbv zeta in *.
      set (fj := Qmin (remainingSize sj) (OrderBookLevel.size level)) in *.
      set (fk := Qmin (remainingSize sk) (OrderBookLevel.size level)) in *.
      set (p := OrderBookLevel.price level) in *.
      assert (Hfjk' : fj <= fk).
      { unfold fj, fk. apply Q.min_le_compat_r. assumption. }
      assert (HpF : totalCost sj <= p * filledSize sj) by nra.
      apply (IH _ _ p); try assumption.
      * lra.
      * rewrite Hjr, Hkr.
        destruct (Qlt_le_dec fk (remainingSize sk)) as [Hlt | Hge].
        -- specialize (Hk3 Hlt). lra.
        -- lra.
      * lra.
      * lra.
      * rewrite Hjc, Hkc, Hjf, Hkf.
        assert (0 <= (fk - fj) * (p * filledSize sj - totalCost sj))
          by (apply Qmult_le_0_compat; lra).
        nra.
      * rewrite Hjc, Hjf. nra.
      * intros Hmore. rewrite Hjr in Hmore.
        assert (Hfjs : fj == OrderBookLevel.size level) by (apply Hj3; lra).
        assert (Hfks : fk == OrderBookLevel.size level) by (apply Hk3; lra).
        rewrite Hjf, Hkf, Hjc, Hkc, Hfjs, Hfks, HF, HC. split; reflexivity.
    + rewrite (walk_done (level :: rest) sj Hstop).
      destruct (Qlt_le_dec 0 (remainingSize sk)) as [Hgok | Hstopk].
      * simpl walk. rewrite (proj2 (Qle_bool_false _ _) Hgok).
        destruct (fillLevel_fills level sk Hgok Hsize)
          as (Hk0 & Hk1 & Hk2 & Hk3 & Hkr & Hkf & Hkc).
        cbv zeta in *.
        set (fk := Qmin (remainingSize sk) (OrderBookLevel.size level)) in *.
        set (p := OrderBookLevel.price level) in *.
        assert (Hcross' : totalCost sj * filledSize (fillLevel level sk)
                          <= totalCost (fillLevel level sk) * filledSize sj).
        { rewrite Hkc, Hkf.
          assert (0 <= fk * (p * filledSize sj - totalCost sj)) by
            (apply Qmult_le_0_compat; [lra | nra]).
          nra. }
        pose proof (IH sj (fillLevel level sk) w Hs' Hpos' Hw' Hrj ltac:(lra) Hfj
                      ltac:(lra) Hcross' Hcost ltac:(intros; lra)) as Hrest.
        rewrite (walk_done rest sj Hstop) in Hrest. exact Hrest.
      * rewrite (walk_done (level :: rest) sk Hstopk). split; assumption.
Qed.
End TwoSizes.

(** ** calculateExecutionPrice *)

Section ExecutionPrice.
Import ExecutionEngine.

(** The result on a side without levels. *)
Lemma calculateExecutionPrice_no_levels orderBook input :
  selectedLevels orderBook (TradeInput.side input) = [] ->
  calculateExecutionPrice orderBook input = createEmptyResult input.
Proof.
  intros H. unfold calculateExecutionPrice. rewrite H. reflexivity.
Qed.

(** The result on a side that has a first level. *)
Lemma calculateExecutionPrice_levels orderBook input first rest :
  selectedLevels orderBook (TradeInput.side input) = first :: rest ->
  let bestPrice := OrderBookLevel.price first in
  let st := walk (first :: rest) (initialWalk (TradeInput.size input) bestPrice) in
  let averagePrice :=
    if Qgtb (filledSize st) 0 then totalCost st / filledSize st else 0 in
  let slippageFromBest :=
    match TradeInput.side input with
    | BUY => averagePrice - bestPrice
    | SELL => bestPrice - averagePrice
    end in
  calculateExecutionPrice orderBook input =
  ExecutionResult.mk (TradeInput.side input) (TradeInput.outcome input)
    (TradeInput.size input) (filledSize st) averagePrice (totalCost st)
    bestPrice (worstPrice st) slippageFromBest
    (if Qgtb bestPrice 0 then (slippageFromBest / bestPrice) * 100 else 0)
    (fills st) (Qgtb (remainingSize st) 0) (remainingSize st).
Proof.
  intros H. unfold calculateExecutionPrice. rewrite H. reflexivity.
Qed.


(** A weighted average lies between the bounds of its cost. *)
Lemma average_between (lo hi cost filled : Q) :
  0 < filled -> lo * filled <= cost -> cost <= hi * filled ->
  lo <= cost / filled /\ cost / filled <= hi.
Proof.
  intros Hpos Hlo Hhi. split.
  - apply Qle_shift_div_l; assumption.
  - apply Qle_shift_div_r; assumption.
Qed.
End ExecutionPrice.

Section ExecutionClaims.
Import ExecutionEngine.

(** Reduce the projections of a result record and nothing else. *)
Ltac project_result :=
  cbn [ExecutionResult.side ExecutionResult.outcome ExecutionResult.requestedSize
       ExecutionResult.filledSize ExecutionResult.averagePrice
       ExecutionResult.totalCost ExecutionResult.bestPrice
       ExecutionResult.worstPrice ExecutionResult.slippageFromBest
       ExecutionResult.slippagePercent ExecutionResult.fills
       ExecutionResult.partialFill ExecutionResult.remainingSize] in *.

(** C3: when the side of the book that the order consumes (asks for BUY,
    bids for SELL) has no level, [calculateExecutionPrice] returns an
    ordinary result: nothing filled, every price and slippage field 0, no
    fills, [partialFill] set and the whole requested size remaining. *)
Theorem empty_side_gives_zero_fill orderBook input :
  selectedLevels orderBook (TradeInput.side input) = [] ->
  calculateExecutionPrice orderBook input =
  {| ExecutionResult.side := TradeInput.side input;
     ExecutionResult.outcome := TradeInput.outcome input;
     ExecutionResult.requestedSize := TradeInput.size input;
     ExecutionResult.filledSize := 0;
     ExecutionResult.averagePrice := 0;
     ExecutionResult.totalCost := 0;
     ExecutionResult.bestPrice := 0;
     ExecutionResult.worstPrice := 0;
     ExecutionResult.slippageFromBest := 0;
     ExecutionResult.slippagePercent := 0;
     ExecutionResult.fills := [];
     ExecutionResult.partialFill := true;
     ExecutionResult.remainingSize := TradeInput.size input |}.
Proof.
  intros H. rewrite (calculateExecutionPrice_no_levels _ _ H). reflexivity.
Qed.

Lemma empty_side_gives_zero_fill_witness :
  let orderBook := OrderBook.mk [OrderBookLevel.mk 0.39 25] [] 0 "token" "market" in
  let input := TradeInput.mk BUY NO 10 in
  ExecutionResult.partialFill (calculateExecutionPrice orderBook input) = true
  /\ ExecutionResult.remainingSize (calculateExecutionPrice orderBook input) = 10
  /\ ExecutionResult.fills (calculateExecutionPrice orderBook input) = [].
Proof.
  cbv zeta.
  rewrite (empty_side_gives_zero_fill
             (OrderBook.mk [OrderBookLevel.mk 0.39 25] [] 0 "token" "market")
             (TradeInput.mk BUY NO 10) eq_refl).
  repeat split.
Defined.

(** C10: the outcome of the input is only echoed.  Two runs on one book
    whose inputs differ in the outcome alone agree on every other field,
    and [getExecutionPrice], which always passes YES, returns the average
    price of either. *)
Theorem outcome_is_only_echoed orderBook side size (o1 o2 : Outcome) :
  let r1 := calculateExecutionPrice orderBook (TradeInput.mk side o1 size) in
  let r2 := calculateExecutionPrice orderBook (TradeInput.mk side o2 size) in
  agreeExceptOutcome r1 r2
  /\ ExecutionResult.outcome r1 = o1
  /\ ExecutionResult.outcome r2 = o2
  /\ getExecutionPrice orderBook side size = ExecutionResult.averagePrice r1.
Proof.
  unfold getExecutionPrice, calculateExecutionPrice, agreeExceptOutcome.
  cbn [TradeInput.side TradeInput.outcome TradeInput.size].
  destruct (selectedLevels orderBook side); repeat split.
Qed.




Lemma walk_filled_grows levels st : filledSize st <= filledSize (walk levels st).
Proof.
  apply (walk_invariant (fun s => filledSize st <= filledSize s)); [|lra].
  intros level s _ HP.
  destruct (fillLevel_cases level s) as [[Hf ->] | [_ ->]]; simpl in *; lra.
Qed.

(** A positive order meets a first level of positive size: something is
    filled. *)
Lemma first_level_fills orderBook input first rest :
  selectedLevels orderBook (TradeInput.side input) = first :: rest ->
  0 < TradeInput.size input ->
  0 < OrderBookLevel.size first ->
  0 < ExecutionResult.filledSize (calculateExecutionPrice orderBook input).
Proof.
  intros Hsel Hsize Hfirst.
  rewrite (calculateExecutionPrice_levels _ _ _ _ Hsel). project_result.
  set (st0 := initialWalk (TradeInput.size input) (OrderBookLevel.price first)).
  assert (Hgo : Qle_bool (TradeInput.size input) 0 = false)
    by (apply Qle_bool_false; exact Hsize).
  simpl walk. rewrite Hgo.
  pose proof (walk_filled_grows rest (fillLevel first st0)) as Hgrow.
  assert (Hstep : 0 < filledSize (fillLevel first st0)).
  { destruct (fillLevel_cases first st0) as [[Hf ->] | [Hf _]]; simpl in *.
    - lra.
    - case_min (TradeInput.size input) (OrderBookLevel.size first); lra. }
  lra.
Qed.


(** C9: the type says of [slippageFromBest] "always positive or zero".  A
    BUY that fills nothing on a side that has levels breaks it: the
    average price is then 0 and the slippage is minus the best ask.  Here
    the only ask has size 0 and the order has size 10: slippage -0.5,
    that is -100 percent. *)
Theorem unfilled_buy_has_negative_slippage :
  let orderBook := OrderBook.mk [] [OrderBookLevel.mk 0.5 0] 0 "token" "market" in
  let r := calculateExecutionPrice orderBook (TradeInput.mk BUY YES 10) in
  ascendingb (OrderBook.asks orderBook) = true
  /\ allSizesNonneg (OrderBook.asks orderBook) = true
  /\ ExecutionResult.filledSize r == 0
  /\ ExecutionResult.bestPrice r == 0.5
  /\ ExecutionResult.slippageFromBest r == - 0.5
  /\ ExecutionResult.slippagePercent r == - 100
  /\ ~ 0 <= ExecutionResult.slippageFromBest r
  /\ ~ 0 <= ExecutionResult.slippagePercent r.
Proof.
  cbv zeta. repeat split; try (vm_compute; reflexivity);
    intros H; vm_compute in H; apply H; reflexivity.
Qed.

(** The same with a size that is not positive, on a book of positive
    levels. *)
Lemma nonpositive_buy_has_negative_slippage :
  let orderBook := OrderBook.mk [] [OrderBookLevel.mk 0.5 100] 0 "token" "market" in
  let r := calculateExecutionPrice orderBook (TradeInput.mk BUY YES (-5)) in
  ExecutionResult.slippageFromBest r == - 0.5
  /\ ExecutionResult.slippagePercent r == - 100.
Proof.
  cbv zeta. split; vm_compute; reflexivity.
Qed.
(** On asks sorted ascending with positive sizes, a larger BUY never has
    a lower slippage percentage. *)
Lemma buy_slippage_monotone orderBook (o1 o2 : Outcome) (j k : number) :
  ascendingb (OrderBook.asks orderBook) = true ->
  allSizesPositive (OrderBook.asks orderBook) = true ->
  0 < j -> j <= k ->
  ExecutionResult.slippagePercent
    (calculateExecutionPrice orderBook (TradeInput.mk BUY o1 j))
  <= ExecutionResult.slippagePercent
       (calculateExecutionPrice orderBook (TradeInput.mk BUY o2 k)).
Proof.
  intros Hasc Hpos Hj Hjk.
  destruct (OrderBook.asks orderBook) as [|first rest] eqn:Hasks.
  - rewrite !calculateExecutionPrice_no_levels by exact Hasks. simpl. lra.
  - assert (Hfirst : 0 < OrderBookLevel.size first).
    { apply allSizesPositive_Forall in Hpos. inversion Hpos; assumption. }
    pose proof (first_level_fills orderBook (TradeInput.mk BUY o1 j) first rest
                  Hasks Hj Hfirst) as HFj.
    pose proof (first_level_fills orderBook (TradeInput.mk BUY o2 k) first rest
                  Hasks ltac:(simpl; lra) Hfirst) as HFk.
    rewrite (calculateExecutionPrice_levels _ (TradeInput.mk BUY o1 j) _ _ Hasks) in *.
    rewrite (calculateExecutionPrice_levels _ (TradeInput.mk BUY o2 k) _ _ Hasks) in *.
    cbn [TradeInput.side TradeInput.size] in *. project_result.
    set (best := OrderBookLevel.price first) in *.
    set (sj := walk (first :: rest) (initialWalk j best)) in *.
    set (sk := walk (first :: rest) (initialWalk k best)) in *.
    apply ascendingb_sorted in Hasc. apply allSizesPositive_Forall in Hpos.
    destruct (walk_two_sizes (first :: rest) (initialWalk j best) (initialWalk k best) best)
      as [_ Hcross]; simpl; try assumption; try lra.
    { inversion Hasc; subst. constructor; [unfold best; lra | assumption]. }
    fold sj sk in Hcross.
    rewrite (proj2 (Qgtb_true _ _) HFj), (proj2 (Qgtb_true _ _) HFk).
    assert (Havg : totalCost sj / filledSize sj <= totalCost sk / filledSize sk).
    { apply Qle_shift_div_l; [assumption|].
      setoid_replace (totalCost sj / filledSize sj * filledSize sk)
        with (totalCost sj * filledSize sk / filledSize sj) by (field; lra).
      apply Qle_shift_div_r; assumption. }
    revert Havg.
    generalize (totalCost sj / filledSize sj), (totalCost sk / filledSize sk).
    intros aj ak Havg.
    case_test; [|lra].
    apply Qmult_le_compat_r; [|lra].
    unfold Qdiv. apply Qmult_le_compat_r; [lra|].
    apply Qlt_le_weak, Qinv_lt_0_compat. assumption.
Qed.
End ExecutionClaims.

(** ** calculatePayoff and calculateKellyFraction *)

Section PayoffClaims.
Import PayoffCalculator.

(** The result of [calculatePayoff] when something was filled. *)
Lemma calculatePayoff_filled execution :
  ~ ExecutionResult.filledSize execution == 0 ->
  let pnl := calculateResolutionPnL (ExecutionResult.side execution)
               (ExecutionResult.outcome execution)
               (ExecutionResult.filledSize execution)
               (ExecutionResult.averagePrice execution) in
  PayoffResult.pnlIfYes (calculatePayoff execution) = pnlIfYes pnl
  /\ PayoffResult.pnlIfNo (calculatePayoff execution) = pnlIfNo pnl
  /\ PayoffResult.maxGain (calculatePayoff execution) = Qmax (pnlIfYes pnl) (pnlIfNo pnl)
  /\ PayoffResult.maxLoss (calculatePayoff execution) = Qmin (pnlIfYes pnl) (pnlIfNo pnl).
Proof.
  intros Hne. unfold calculatePayoff.
  destruct (Qeq_bool (ExecutionResult.filledSize execution) 0) eqn:E.
  - apply Qeq_bool_iff in E. contradiction.
  - repeat split.
Qed.

Lemma calculatePayoff_unfilled execution :
  ExecutionResult.filledSize execution == 0 ->
  calculatePayoff execution = createZeroPayoff execution.
Proof.
  intros Hz. unfold calculatePayoff.
  apply Qeq_bool_iff in Hz. rewrite Hz. reflexivity.
Qed.



(** C5: for an average price in [0,1] and a filled size at least 0,
    [maxLoss <= 0 <= maxGain]; both are 0 exactly when nothing was
    filled.  (With something filled at a price strictly inside (0,1) both
    inequalities are strict.) *)
Theorem payoff_risk_bounds execution :
  0 <= ExecutionResult.averagePrice execution ->
  ExecutionResult.averagePrice execution <= 1 ->
  0 <= ExecutionResult.filledSize execution ->
  let r := calculatePayoff execution in
  PayoffResult.maxLoss r <= 0
  /\ 0 <= PayoffResult.maxGain r
  /\ (PayoffResult.maxLoss r == 0 /\ PayoffResult.maxGain r == 0
      <-> ExecutionResult.filledSize execution == 0)
  /\ (0 < ExecutionResult.filledSize execution ->
      0 < ExecutionResult.averagePrice execution ->
      ExecutionResult.averagePrice execution < 1 ->
      PayoffResult.maxLoss r < 0 /\ 0 < PayoffResult.maxGain r).
Proof.
  intros Hp0 Hp1 Hn. cbv zeta.
  destruct (Qeq_dec (ExecutionResult.filledSize execution) 0) as [Hz | Hnz].
  - rewrite (calculatePayoff_unfilled _ Hz). simpl.
    split; [lra|]. split; [lra|]. split; [split; intros; lra | intros; lra].
  - destruct (calculatePayoff_filled execution Hnz) as (_ & _ & -> & ->).
    set (n := ExecutionResult.filledSize execution) in *.
    set (p := ExecutionResult.averagePrice execution) in *.
    assert (Hpos : 0 < n) by lra.
    destruct (ExecutionResult.side execution), (ExecutionResult.outcome execution);
      simpl;
      match goal with
      | |- context [Qmin ?a ?b] => case_min a b; case_max a b
      end;
      rewrite ?Hmin, ?Hmax;
      (split; [nra|]; split; [nra|]; split; [split; intros; nra | intros; split; nra]).
Qed.

Lemma payoff_risk_bounds_witness :
  let execution :=
    ExecutionResult.mk SELL NO 100 100 0.40 40 0.40 0.40 0 0
      [Fill.mk 0.40 100 100] false 0 in
  PayoffResult.maxLoss (calculatePayoff execution) <= 0
  /\ 0 <= PayoffResult.maxGain (calculatePayoff execution).
Proof.
  cbv zeta.
  destruct (payoff_risk_bounds
              (ExecutionResult.mk SELL NO 100 100 0.40 40 0.40 0.40 0 0
                 [Fill.mk 0.40 100 100] false 0))
    as (Hloss & Hgain & _); try (vm_compute; discriminate).
  split; assumption.
Defined.
(** At the ends of the price range one of the two bounds is 0 although
    something was filled: a BUY YES at price 1 cannot gain. *)
Example payoff_at_price_one :
  let r := calculatePayoff
             (ExecutionResult.mk BUY YES 1 1 1 1 1 1 0 0 [Fill.mk 1 1 1] false 0) in
  PayoffResult.maxGain r == 0 /\ PayoffResult.maxLoss r == - 1.
Proof. cbv zeta. split; vm_compute; reflexivity. Qed.

(** With the market price strictly inside (0,1) neither divisor of the
    Kelly formula is 0, and the formula is the edge over the payoff of a
    win. *)
Lemma kelly_is_edge_over_payoff trueProb marketPrice side outcome :
  0 < marketPrice -> marketPrice < 1 ->
  let t := kellyTerms trueProb marketPrice side outcome in
  0 < payoffIfWin t /\ 0 < lossIfLose t
  /\ (winProb t * (payoffIfWin t / lossIfLose t) - loseProb t)
       / (payoffIfWin t / lossIfLose t)
     == edge (calculateKellyFraction trueProb marketPrice side outcome) / payoffIfWin t.
Proof.
  intros H0 H1. unfold calculateKellyFraction.
  destruct side, outcome; simpl; (split; [lra|]; split; [lra|]); field; lra.
Qed.



Example kelly_fair_price_edge : edge (calculateKellyFraction 0.4 0.4 BUY YES) == 0.
Proof. vm_compute. reflexivity. Qed.

Example kelly_favourable_bet :
  fraction (calculateKellyFraction 0.6 0.4 BUY YES) == 1 # 3.
Proof. vm_compute. reflexivity. Qed.
End PayoffClaims.

(** ** findMaxViableArbSize and compareMarkets *)

Section ViableSize.
Import ArbitrageAnalyzer.

Lemma midpoint_between (low high : Z) :
  (high - low > 1)%Z -> (low < (low + high) / 2 < high)%Z.
Proof.
  intros H.
  pose proof (Z.div_mod (low + high) 2 ltac:(lia)).
  pose proof (Z.mod_pos_bound (low + high) 2 ltac:(lia)). lia.
Qed.

(** What the binary search returns: a size [m] with [low <= m < high]
    that passed the test unless it is [low] itself, and whose successor
    failed the test unless it is [high] itself. *)
Lemma searchLoop_result viable low high maxSize :
  (low < high)%Z -> maxSize = low ->
  let m := searchLoop viable low high maxSize in
  (low <= m < high)%Z
  /\ (m = low \/ viable m = true)
  /\ ((m + 1)%Z = high \/ viable (m + 1)%Z = false).
Proof.
  funelim (searchLoop viable low high maxSize); intros Hlt Hmax; cbv zeta.
  - clear Heqcall. subst maxSize.
    split; [lia|]. split; left; [reflexivity | lia].
  - clear Heqcall. pose proof (midpoint_between low high g) as Hmid.
    match goal with
    | IH : (_ < _)%Z -> _ = _ -> _ |- _ =>
        destruct (IH ltac:(lia) eq_refl) as (Hrange & Hlow & Hhigh)
    end.
    split; [lia|]. split; [|assumption].
    right. destruct Hlow as [-> | Hv]; assumption.
  - clear Heqcall. pose proof (midpoint_between low high g) as Hmid.
    match goal with
    | IH : (_ < _)%Z -> _ = _ -> _ |- _ =>
        destruct (IH ltac:(lia) Hmax) as (Hrange & Hlow & Hhigh)
    end.
    split; [lia|]. split; [assumption|].
    right. destruct Hhigh as [Hm | Hv]; [rewrite Hm|]; assumption.
Qed.

(** [findMaxViableArbSize] returns 0 without an edge; with an edge it
    returns a size of at most 9999 that is viable unless it is 0, and
    whose successor is not viable unless it is 10000. *)
Lemma findMaxViableArbSize_result marketA marketB initialEdge :
  let m := findMaxViableArbSize marketA marketB initialEdge in
  (initialEdge <= 0 -> m = 0%Z)
  /\ (0 < initialEdge ->
      (0 <= m <= 9999)%Z
      /\ ((0 < m)%Z -> viableAt marketA marketB initialEdge m)
      /\ ((m < 9999)%Z -> ~ viableAt marketA marketB initialEdge (m + 1))).
Proof.
  cbv zeta. unfold findMaxViableArbSize, viableAt. case_test.
  - split; [reflexivity | intros; lra].
  - set (viable := fun mid => Qgtb (edgeRemainingAt marketA marketB initialEdge mid) 0).
    destruct (searchLoop_result viable 0 10000 0 ltac:(lia) eq_refl)
      as (Hrange & Hlow & Hhigh).
    split; [intros; lra | intros _].
    split; [lia|]. split.
    + intros Hm. destruct Hlow as [Hz | Hv]; [lia|].
      apply Qgtb_true in Hv. exact Hv.
    + intros Hm Hviable. destruct Hhigh as [Hz | Hv]; [lia|].
      apply Qgtb_false in Hv. lra.
Qed.

(** The edge enters the test only through its value. *)
Lemma viableAt_edge marketA marketB (e1 e2 : number) k :
  e1 == e2 -> viableAt marketA marketB e1 k -> viableAt marketA marketB e2 k.
Proof.
  unfold viableAt, edgeRemainingAt. intros He H. rewrite <- He. exact H.
Qed.

(** When [detectApparentArbitrage] reports an arbitrage its edge is above
    the 2 percent allowance. *)
Lemma detectApparentArbitrage_edge execAYes execANo execBYes execBNo :
  let arb := detectApparentArbitrage execAYes execANo execBYes execBNo in
  ApparentArbitrage.hasArbitrage arb = true ->
  0.02 < ApparentArbitrage.arbitrageEdge arb.
Proof.
  cbv zeta. unfold detectApparentArbitrage.
  repeat (case_test; cbn [ApparentArbitrage.hasArbitrage ApparentArbitrage.arbitrageEdge]);
    try discriminate; intros _; lra.
Qed.
(** So viability at a size carries over to the smaller sizes from 1 on. *)
Lemma viableAt_smaller marketA marketB initialEdge (j k : Z) :
  ascendingb (OrderBook.asks (MarketOrderBooks.yes marketA)) = true ->
  allSizesPositive (OrderBook.asks (MarketOrderBooks.yes marketA)) = true ->
  ascendingb (OrderBook.asks (MarketOrderBooks.yes marketB)) = true ->
  allSizesPositive (OrderBook.asks (MarketOrderBooks.yes marketB)) = true ->
  (1 <= j <= k)%Z ->
  viableAt marketA marketB initialEdge k -> viableAt marketA marketB initialEdge j.
Proof.
  intros HascA HposA HascB HposB Hjk. unfold viableAt, edgeRemainingAt.
  assert (Hj : 0 < inject_Z j) by (unfold Qlt; simpl; lia).
  assert (Hle : inject_Z j <= inject_Z k) by (unfold Qle; simpl; lia).
  pose proof (buy_slippage_monotone (MarketOrderBooks.yes marketA) YES YES _ _
                HascA HposA Hj Hle).
  pose proof (buy_slippage_monotone (MarketOrderBooks.yes marketB) YES YES _ _
                HascB HposB Hj Hle).
  lra.
Qed.

(** C7, as the code has it: [maxViableSize] is 0 unless
    [apparentArbitrage] is set, which a cross-market price discrepancy
    does not do although it returns a positive [arbitrageEdge].  With
    [apparentArbitrage] set the edge is positive and [maxViableSize] is
    the size [m] that the binary search strictly between 0 and 10000
    ends on: [0 <= m <= 9999], the edge in percent exceeds the slippage
    of the two YES legs at [m] unless [m = 0], and does not exceed it at
    [m + 1] unless [m = 9999].  So when viability at a size carries over
    to the smaller sizes from 1 on, as it does when the YES asks of both
    markets are sorted ascending with positive sizes, [m] bounds every
    viable size in [1, 9999]. *)
Theorem max_viable_size_of_comparison marketA marketB tradeSize :
  let r := compareMarkets marketA marketB tradeSize in
  let m := maxViableSize r in
  let viable := viableAt marketA marketB (arbitrageEdge r) in
  (apparentArbitrage r = false -> m = 0%Z)
  /\ (apparentArbitrage r = true ->
      0 < arbitrageEdge r
      /\ (0 <= m <= 9999)%Z
      /\ ((0 < m)%Z -> viable m)
      /\ ((m < 9999)%Z -> ~ viable (m + 1)%Z)
      /\ ((forall j k, (1 <= j <= k)%Z -> (k <= 9999)%Z -> viable k -> viable j) ->
          forall k, (1 <= k <= 9999)%Z -> viable k -> (k <= m)%Z)
      /\ (ascendingb (OrderBook.asks (MarketOrderBooks.yes marketA)) = true ->
          allSizesPositive (OrderBook.asks (MarketOrderBooks.yes marketA)) = true ->
          ascendingb (OrderBook.asks (MarketOrderBooks.yes marketB)) = true ->
          allSizesPositive (OrderBook.asks (MarketOrderBooks.yes marketB)) = true ->
          forall k, (1 <= k <= 9999)%Z -> viable k -> (k <= m)%Z)).
Proof.
  cbv zeta. unfold compareMarkets.
  cbn [apparentArbitrage arbitrageEdge maxViableSize].
  remember (detectApparentArbitrage _ _ _ _) as arb eqn:Harb.
  assert (Hedge : ApparentArbitrage.hasArbitrage arb = true ->
                  0.02 < ApparentArbitrage.arbitrageEdge arb)
    by (subst arb; apply detectApparentArbitrage_edge).
  clear Harb.
  destruct (ApparentArbitrage.hasArbitrage arb); split; try discriminate.
  - intros _. specialize (Hedge eq_refl).
    set (e := ApparentArbitrage.arbitrageEdge arb) in *.
    assert (Habs : Qabs e == e) by (apply Qabs_pos; lra).
    destruct (findMaxViableArbSize_result marketA marketB (Qabs e)) as [_ Hres].
    destruct Hres as (Hrange & Hlow & Hhigh); [lra|].
    set (m := findMaxViableArbSize marketA marketB (Qabs e)) in *.
    assert (Hhigh' : (m < 9999)%Z -> ~ viableAt marketA marketB e (m + 1)).
    { intros Hm Hv. apply (Hhigh Hm).
      apply (viableAt_edge _ _ e); [symmetry; exact Habs | exact Hv]. }
    assert (Hbound : (forall j k, (1 <= j <= k)%Z -> (k <= 9999)%Z ->
                        viableAt marketA marketB e k -> viableAt marketA marketB e j) ->
                     forall k, (1 <= k <= 9999)%Z -> viableAt marketA marketB e k ->
                               (k <= m)%Z).
    { intros Hmono k Hk Hv.
      destruct (Z_le_gt_dec k m) as [Hle | Hgt]; [exact Hle|].
      exfalso. apply (Hhigh' ltac:(lia)).
      apply (Hmono (m + 1)%Z k); [lia | lia | exact Hv]. }
    split; [lra|]. split; [exact Hrange|]. split; [|split; [exact Hhigh'|split]].
    + intros Hm. apply (viableAt_edge _ _ (Qabs e)); [exact Habs | auto].
    + exact Hbound.
    + intros HascA HposA HascB HposB. apply Hbound.
      intros j k Hjk _. apply viableAt_smaller; assumption.
  - intros _. destruct (findMaxViableArbSize_result marketA marketB 0) as [Hzero _].
    apply Hzero. lra.
Qed.

Lemma max_viable_size_of_comparison_witness :
  let r := compareMarkets Samples.steppedA Samples.steppedB 100 in
  0 < arbitrageEdge r
  /\ (0 <= maxViableSize r <= 9999)%Z
  /\ forall k, (1 <= k <= 9999)%Z ->
       viableAt Samples.steppedA Samples.steppedB (arbitrageEdge r) k ->
       (k <= maxViableSize r)%Z.
Proof.
  destruct (max_viable_size_of_comparison Samples.steppedA Samples.steppedB 100)
    as [_ Hfound].
  destruct (Hfound ltac:(vm_compute; reflexivity))
    as (Hedge & Hrange & _ & _ & _ & Hsorted).
  split; [exact Hedge|]. split; [exact Hrange|].
  apply Hsorted; reflexivity.
Defined.

(** On the stepped books the edge of 4 percent survives the slippage of
    the two YES legs up to a size of 83. *)
Example stepped_books_viable_size :
  maxViableSize (compareMarkets Samples.steppedA Samples.steppedB 100) = 83%Z.
Proof. vm_compute. reflexivity. Qed.

(** C7 as stated fails.  Markets [apartA] and [apartB] quote YES ten
    cents apart: the comparison returns [arbitrageEdge = 0.1 > 0] with
    [apparentArbitrage = false], so [maxViableSize] is 0, although at
    size 1 the edge of 10 percent meets no slippage at all. *)
Lemma max_viable_size_ignores_cross_market_edge :
  ~ maxViableSizeIsLargest Samples.apartA Samples.apartB 100.
Proof.
  intros [Hfound _].
  destruct Hfound as (_ & _ & Hmax); [vm_compute; reflexivity|].
  specialize (Hmax 1%Z ltac:(lia) ltac:(vm_compute; reflexivity)).
  vm_compute in Hmax. apply Hmax. reflexivity.
Qed.

(** Nor is the upper end of the range ever tried: on deep books every
    size up to 10000 is viable, and the search ends on 9999. *)
Lemma max_viable_size_stops_at_9999 :
  maxViableSize (compareMarkets Samples.cheapA Samples.fairB 100) = 9999%Z
  /\ viableAt Samples.cheapA Samples.fairB
       (arbitrageEdge (compareMarkets Samples.cheapA Samples.fairB 100)) 10000
  /\ ~ maxViableSizeIsLargest Samples.cheapA Samples.fairB 100.
Proof.
  split; [vm_compute; reflexivity|]. split; [vm_compute; reflexivity|].
  intros [Hfound _].
  destruct Hfound as (_ & _ & Hmax); [vm_compute; reflexivity|].
  specialize (Hmax 10000%Z ltac:(lia) ltac:(vm_compute; reflexivity)).
  vm_compute in Hmax. apply Hmax. reflexivity.
Qed.
End ViableSize.

(** ** Array.prototype.sort *)

Section SortFacts.
Context {A : Type} (before : A -> A -> bool).

Lemma insertSorted_Forall (P : A -> Prop) x l :
  P x -> Forall P l -> Forall P (insertSorted before x l).
Proof.
  intros Hx. induction 1 as [|y rest Hy Hrest IH]; simpl.
  - repeat constructor; assumption.
  - destruct (before x y); repeat constructor; assumption.
Qed.

Lemma arraySort_Forall (P : A -> Prop) l :
  Forall P l -> Forall P (arraySort before l).
Proof.
  induction 1; simpl; [constructor | apply insertSorted_Forall; assumption].
Qed.

Hypothesis before_total : forall x y, before x y = true \/ before y x = true.
Hypothesis before_trans :
  forall x y z, before x y = true -> before y z = true -> before x z = true.

Lemma insertSorted_sorted x l :
  StronglySorted (fun a b => before a b = true) l ->
  StronglySorted (fun a b => before a b = true) (insertSorted before x l).
Proof.
  induction 1 as [|y rest Hs IH Hy]; simpl.
  - repeat constructor.
  - destruct (before x y) eqn:E.
    + constructor; [constructor; assumption|].
      constructor; [assumption|].
      eapply Forall_impl; [|exact Hy]. simpl; intros z Hz.
      eapply before_trans; eassumption.
    + constructor; [assumption|].
      apply insertSorted_Forall; [|assumption].
      destruct (before_total x y) as [H | H]; congruence.
Qed.

Lemma arraySort_sorted l :
  StronglySorted (fun a b => before a b = true) (arraySort before l).
Proof.
  induction l; simpl; [constructor | apply insertSorted_sorted; assumption].
Qed.
End SortFacts.

(** ** groupSimilarMarkets *)

Section Grouping.
Import DiscrepancyEngine.
Variable input : list NormalizedMarket.t.

Lemma mapSet_entries slug g groups :
  entryOf input (slug, g) ->
  Forall (entryOf input) groups -> Forall (entryOf input) (mapSet slug g groups).
Proof.
  intros Hg. induction 1 as [|[k v] rest Hkv Hrest IH]; simpl.
  - constructor; [assumption | constructor].
  - destruct (String.eqb k slug) eqn:E.
    + apply String.eqb_eq in E. subst k. constructor; assumption.
    + constructor; assumption.
Qed.

Lemma pushMarket_entries slug market groups :
  In market input ->
  generateSlug (NormalizedMarket.question market) = slug ->
  Forall (entryOf input) groups ->
  Forall (entryOf input) (pushMarket slug market groups).
Proof.
  intros Hin Hslug. induction 1 as [|[k v] rest Hkv Hrest IH]; simpl.
  - constructor.
  - destruct (String.eqb k slug) eqn:E.
    + apply String.eqb_eq in E. subst k. constructor; [|assumption].
      destruct Hkv as [Hkey Hmarkets]. split; simpl in *; [assumption|].
      apply Forall_app; split; [assumption|].
      constructor; [split; assumption | constructor].
    + constructor; assumption.
Qed.

Lemma addMarket_entries groups market :
  In market input ->
  Forall (entryOf input) groups -> Forall (entryOf input) (addMarket groups market).
Proof.
  intros Hin Hgroups. unfold addMarket.
  apply pushMarket_entries; [assumption | reflexivity |].
  destruct (negb (mapHas _ groups)); [|assumption].
  apply mapSet_entries; [|assumption]. split; simpl; constructor.
Qed.

Lemma fold_addMarket_entries markets0 : forall groups,
  incl markets0 input ->
  Forall (entryOf input) groups ->
  Forall (entryOf input) (fold_left addMarket markets0 groups).
Proof.
  induction markets0 as [|m rest IH]; intros groups Hincl Hgroups; simpl.
  - assumption.
  - apply IH.
    + intros x Hx. apply Hincl. right. exact Hx.
    + apply addMarket_entries; [apply Hincl; left; reflexivity | assumption].
Qed.
End Grouping.

(** Every group that [groupSimilarMarkets] returns has at least two
    markets, all of them input markets whose question has the slug of the
    group. *)
Lemma groupSimilarMarkets_groups markets0 g :
  In g (DiscrepancyEngine.groupSimilarMarkets markets0) ->
  (2 <= List.length (DiscrepancyEngine.markets g))%nat
  /\ Forall (fun m => In m markets0
                      /\ DiscrepancyEngine.generateSlug (NormalizedMarket.question m)
                         = DiscrepancyEngine.eventSlug g)
       (DiscrepancyEngine.markets g).
Proof.
  unfold DiscrepancyEngine.groupSimilarMarkets. intros Hin.
  apply filter_In in Hin as [Hin Hlen]. apply Nat.ltb_lt in Hlen.
  split; [lia|].
  apply in_map_iff in Hin as ([k v] & Heq & Hkv). simpl in Heq. subst v.
  pose proof (fold_addMarket_entries markets0 markets0 [] (incl_refl _) (Forall_nil _))
    as Hall.
  rewrite Forall_forall in Hall. destruct (Hall _ Hkv) as [Hkey Hmarkets].
  simpl in *. rewrite Hkey. exact Hmarkets.
Qed.

(** ** analyzeGroup and detectDiscrepancies *)

Section Discrepancies.
Import DiscrepancyEngine.
Variable searchNews : string -> list NewsCorrelation.t.

Lemma minOf_lower (lo : Q) xs : forall x,
  lo <= x -> Forall (fun y => lo <= y) xs -> lo <= minOf x xs.
Proof.
  unfold minOf. induction xs as [|y ys IH]; intros x Hx Hall; simpl.
  - assumption.
  - inversion Hall; subst. apply IH; [|assumption]. apply Q.min_glb; assumption.
Qed.

Lemma maxOf_upper (hi : Q) xs : forall x,
  x <= hi -> Forall (fun y => y <= hi) xs -> maxOf x xs <= hi.
Proof.
  unfold maxOf. induction xs as [|y ys IH]; intros x Hx Hall; simpl.
  - assumption.
  - inversion Hall; subst. apply IH; [|assumption]. apply Q.max_lub; assumption.
Qed.

(** A discrepancy that [analyzeGroup] returns: its spread has reached the
    threshold and, for probabilities in [0,1], is at most 1; its quotes
    are those of the group. *)
Lemma analyzeGroup_result group d :
  Forall (fun m => 0 <= NormalizedMarket.yesProbability m
                   /\ NormalizedMarket.yesProbability m <= 1) (markets group) ->
  analyzeGroup searchNews group = Some d ->
  MIN_SPREAD_THRESHOLD <= DiscrepancyResult.maxSpread d
  /\ DiscrepancyResult.maxSpread d <= 1
  /\ DiscrepancyResult.markets d = List.map quoteOf (markets group)
  /\ DiscrepancyResult.eventSlug d = eventSlug group.
Proof.
  intros Hrange. unfold analyzeGroup.
  destruct (List.map NormalizedMarket.yesProbability (markets group))
    as [|y ys] eqn:Hys; [discriminate|].
  assert (Hall : Forall (fun p => 0 <= p /\ p <= 1) (y :: ys)).
  { rewrite <- Hys. apply Forall_map. exact Hrange. }
  inversion Hall as [|? ? [Hy0 Hy1] Hrest]; subst.
  assert (Hmin : 0 <= minOf y ys).
  { apply minOf_lower; [assumption|].
    eapply Forall_impl; [|exact Hrest]. simpl; intros ? [? ?]; assumption. }
  assert (Hmax : maxOf y ys <= 1).
  { apply maxOf_upper; [assumption|].
    eapply Forall_impl; [|exact Hrest]. simpl; intros ? [? ?]; assumption. }
  case_test; [discriminate|].
  intros Hd. inversion Hd; subst; clear Hd. simpl.
  repeat split; try assumption; lra.
Qed.

Lemma collect_Forall (P : DiscrepancyResult.t -> Prop) groups : forall discrepancies,
  Forall P discrepancies ->
  (forall g d, In g groups -> (2 <= List.length (markets g))%nat ->
               analyzeGroup searchNews g = Some d ->
               MIN_SPREAD_THRESHOLD <= DiscrepancyResult.maxSpread d -> P d) ->
  Forall P (collect searchNews groups discrepancies).
Proof.
  induction groups as [|g rest IH]; intros acc Hacc Hstep; simpl.
  - assumption.
  - assert (Hrest : forall g' d, In g' rest -> (2 <= List.length (markets g'))%nat ->
                      analyzeGroup searchNews g' = Some d ->
                      MIN_SPREAD_THRESHOLD <= DiscrepancyResult.maxSpread d -> P d)
      by (intros g' d Hin; apply Hstep; right; exact Hin).
    destruct (List.length (markets g) <? 2)%nat eqn:Hlen; [apply IH; assumption|].
    apply Nat.ltb_ge in Hlen.
    destruct (analyzeGroup searchNews g) as [analysis|] eqn:Han; [|apply IH; assumption].
    unfold Qgeb. case_test; apply IH; try assumption.
    apply Forall_app; split; [assumption|].
    constructor; [|constructor].
    apply (Hstep g); [left; reflexivity | assumption | assumption | assumption].
Qed.

Lemma bySpreadDescending_spec a b :
  bySpreadDescending a b = true <-> spreadDescending a b.
Proof.
  unfold bySpreadDescending, spreadDescending.
  rewrite Qle_bool_iff. split; intros; lra.
Qed.

Lemma StronglySorted_weaken {A} (R R' : A -> A -> Prop) l :
  (forall a b, R a b -> R' a b) -> StronglySorted R l -> StronglySorted R' l.
Proof.
  intros Himp. induction 1 as [|x rest Hs IH Hx]; constructor; [assumption|].
  eapply Forall_impl; [|exact Hx]. exact (Himp x).
Qed.

Lemma probabilitiesInRange_Forall markets0 :
  probabilitiesInRange markets0 = true ->
  Forall (fun m => 0 <= NormalizedMarket.yesProbability m
                   /\ NormalizedMarket.yesProbability m <= 1) markets0.
Proof.
  unfold probabilitiesInRange. rewrite forallb_forall, Forall_forall.
  intros H m Hm. specialize (H m Hm). apply andb_true_iff in H as [H0 H1].
  split; apply Qle_bool_iff; assumption.
Qed.

(** C8: for input markets whose YES probabilities all lie in [0,1],
    every discrepancy that [detectDiscrepancies] returns has a spread of
    at least 0.03 and within [0,1], and carries the quotes of at least
    two input markets grouped under its slug; the returned sequence is
    sorted by spread, highest first. *)
Theorem detected_discrepancies markets0 :
  probabilitiesInRange markets0 = true ->
  let ds := detectDiscrepancies searchNews markets0 in
  Forall (discrepancyOf markets0) ds
  /\ StronglySorted spreadDescending ds.
Proof.
  intros Hrange. apply probabilitiesInRange_Forall in Hrange.
  cbv zeta. unfold detectDiscrepancies. split.
  - apply arraySort_Forall. apply collect_Forall; [constructor|].
    intros g d Hin Hlen Han Hmin.
    destruct (groupSimilarMarkets_groups markets0 g Hin) as [_ Hmarkets].
    assert (Hprob : Forall (fun m => 0 <= NormalizedMarket.yesProbability m
                                     /\ NormalizedMarket.yesProbability m <= 1)
                      (markets g)).
    { rewrite Forall_forall in *. intros m Hm.
      apply Hrange. apply (Hmarkets m Hm). }
    destruct (analyzeGroup_result g d Hprob Han) as (Hlow & Hhigh & Hquotes & Hslug).
    unfold MIN_SPREAD_THRESHOLD in Hlow.
    unfold discrepancyOf. rewrite Hquotes, Hslug, length_map.
    repeat split; try assumption; try lra.
    apply Forall_map. eapply Forall_impl; [|exact Hmarkets].
    simpl. intros m [Hm Hs]. exists m. repeat split; assumption.
  - eapply StronglySorted_weaken; [apply bySpreadDescending_spec|].
    apply arraySort_sorted.
    + intros x y. rewrite !bySpreadDescending_spec. unfold spreadDescending.
      destruct (Qlt_le_dec (DiscrepancyResult.maxSpread x) (DiscrepancyResult.maxSpread y));
        [right | left]; lra.
    + intros x y z. rewrite !bySpreadDescending_spec. unfold spreadDescending.
      intros; lra.
Qed.
End Discrepancies.

Lemma detected_discrepancies_witness :
  let ds := DiscrepancyEngine.detectDiscrepancies Samples.noNews Samples.quotes in
  Forall (discrepancyOf Samples.quotes) ds
  /\ StronglySorted spreadDescending ds.
Proof.
  apply (detected_discrepancies Samples.noNews Samples.quotes). reflexivity.
Defined.

(** The two events quoted twice come back, the wider spread first. *)
Example detected_discrepancies_sample :
  List.map (fun d => (DiscrepancyResult.eventSlug d,
                      Qred (DiscrepancyResult.maxSpread d),
                      Qred (DiscrepancyResult.confidence d)))
    (DiscrepancyEngine.detectDiscrepancies Samples.noNews Samples.quotes)
  = [("bitcoin-ethereum-flip-will"%string, 1 # 10, 4 # 5);
     ("100k-2025-bitcoin-reach-will"%string, 3 # 50, 4 # 5)].
Proof. vm_compute. reflexivity. Qed.

(** ** Scenarios *)

(** Asks of 50 at 0.40 and 100 at 0.42, BUY of 120: 50 and 70 are filled
    for a cost of 49.4. *)
Example scenario_two_levels :
  let r := ExecutionEngine.calculateExecutionPrice Samples.twoAsks
             (TradeInput.mk BUY YES 120) in
  ExecutionResult.filledSize r == 120
  /\ ExecutionResult.totalCost r == 49.4
  /\ ExecutionResult.averagePrice r == 247 # 600
  /\ ExecutionResult.partialFill r = false
  /\ List.map Fill.size (ExecutionResult.fills r) = [50; 70].
Proof. cbv zeta. repeat split; vm_compute; reflexivity. Qed.

(** BUY YES of 100 contracts at 0.40: 60 if YES, -40 if NO, that is 150
    and -100 percent of the cost. *)
Example scenario_buy_yes_payoff :
  let r := PayoffCalculator.calculatePayoff
             (ExecutionResult.mk BUY YES 100 100 0.40 40 0.40 0.40 0 0
                [Fill.mk 0.40 100 100] false 0) in
  PayoffResult.pnlIfYes r == 60
  /\ PayoffResult.pnlIfNo r == - 40
  /\ PayoffResult.returnIfYes r == 150
  /\ PayoffResult.returnIfNo r == - 100.
Proof. cbv zeta. repeat split; vm_compute; reflexivity. Qed.

(** A market whose YES and NO executions add up to 0.95 is flagged, with
    an edge of 0.05. *)
Example scenario_same_market_edge :
  let marketA := Samples.market (Samples.oneAsk 0.45 1000) (Samples.oneAsk 0.50 1000) in
  let r := ArbitrageAnalyzer.compareMarkets marketA Samples.fairB 100 in
  ArbitrageAnalyzer.apparentArbitrage r = true
  /\ ArbitrageAnalyzer.arbitrageEdge r == 0.05.
Proof. cbv zeta. split; vm_compute; reflexivity. Qed.

(** * Further properties of the engine *)

Ltac project_fields :=
  cbn [ExecutionResult.side ExecutionResult.outcome ExecutionResult.requestedSize
       ExecutionResult.filledSize ExecutionResult.averagePrice
       ExecutionResult.totalCost ExecutionResult.bestPrice
       ExecutionResult.worstPrice ExecutionResult.slippageFromBest
       ExecutionResult.slippagePercent ExecutionResult.fills
       ExecutionResult.partialFill ExecutionResult.remainingSize
       TradeInput.side TradeInput.outcome TradeInput.size] in *.

(** ** How much of an order is filled *)

Section FilledSize.
Import ExecutionEngine.



End FilledSize.

(** ** Cost and average price *)

Section CostAndAverage.
Import ExecutionEngine.


(** The cost of what was filled lies between the fills priced at [lo] and
    at [hi], whatever the order of the levels. *)
Lemma walk_cost_range (lo hi : Q) levels : forall st,
  Forall (fun l => lo <= OrderBookLevel.price l /\ OrderBookLevel.price l <= hi) levels ->
  lo * filledSize st <= totalCost st ->
  totalCost st <= hi * filledSize st ->
  lo * filledSize (walk levels st) <= totalCost (walk levels st)
  /\ totalCost (walk levels st) <= hi * filledSize (walk levels st).
Proof.
  induction levels as [|level rest IH]; intros st Hall Hlo Hhi; simpl.
  - split; assumption.
  - case_test; [split; assumption|].
    inversion Hall as [|? ? [Hl Hh] Hrest]; subst.
    destruct (fillLevel_cases level st) as [[Hf ->] | [_ ->]]; cbv zeta in *.
    + apply IH; simpl; try assumption; nra.
    + apply IH; assumption.
Qed.



Lemma pricesInUnit_Forall levels :
  pricesInUnit levels = true ->
  Forall (fun l => 0 <= OrderBookLevel.price l /\ OrderBookLevel.price l <= 1) levels.
Proof.
  unfold pricesInUnit. rewrite forallb_forall, Forall_forall.
  intros H l Hl. specialize (H l Hl). apply andb_true_iff in H as [H0 H1].
  split; apply Qle_bool_iff; assumption.
Qed.

(** On a side whose prices lie in [lo,hi] the average price of a fill
    lies in [lo,hi], sorted or not. *)
Lemma average_in_price_range (lo hi : Q) orderBook input :
  Forall (fun l => lo <= OrderBookLevel.price l /\ OrderBookLevel.price l <= hi)
    (selectedLevels orderBook (TradeInput.side input)) ->
  let r := calculateExecutionPrice orderBook input in
  0 < ExecutionResult.filledSize r ->
  lo <= ExecutionResult.averagePrice r /\ ExecutionResult.averagePrice r <= hi.
Proof.
  intros Hall. cbv zeta.
  destruct (selectedLevels orderBook (TradeInput.side input)) as [|first rest] eqn:Hsel.
  - rewrite (calculateExecutionPrice_no_levels _ _ Hsel). simpl. intros; lra.
  - rewrite (calculateExecutionPrice_levels _ _ _ _ Hsel). project_fields.
    set (st0 := initialWalk (TradeInput.size input) (OrderBookLevel.price first)).
    intros HF. rewrite (proj2 (Qgtb_true _ _) HF).
    destruct (walk_cost_range lo hi (first :: rest) st0 Hall) as [Hlo Hhi];
      try (simpl; lra).
    apply average_between; assumption.
Qed.

Lemma execution_in_unit orderBook input :
  pricesInUnit (selectedLevels orderBook (TradeInput.side input)) = true ->
  0 <= ExecutionResult.averagePrice (calculateExecutionPrice orderBook input)
  /\ ExecutionResult.averagePrice (calculateExecutionPrice orderBook input) <= 1
  /\ 0 <= ExecutionResult.totalCost (calculateExecutionPrice orderBook input)
  /\ ExecutionResult.totalCost (calculateExecutionPrice orderBook input)
     <= ExecutionResult.filledSize (calculateExecutionPrice orderBook input).
Proof.
  intros Hunit. apply pricesInUnit_Forall in Hunit.
  destruct (selectedLevels orderBook (TradeInput.side input)) as [|first rest] eqn:Hsel.
  - rewrite (calculateExecutionPrice_no_levels _ _ Hsel). simpl. repeat split; lra.
  - rewrite (calculateExecutionPrice_levels _ _ _ _ Hsel). project_fields.
    set (st0 := initialWalk (TradeInput.size input) (OrderBookLevel.price first)).
    destruct (walk_cost_range 0 1 (first :: rest) st0 Hunit) as [Hlo Hhi];
      try (simpl; lra).
    case_test.
    + destruct (average_between 0 1 (totalCost (walk (first :: rest) st0))
                  (filledSize (walk (first :: rest) st0))); try assumption.
      repeat split; lra.
    + repeat split; lra.
Qed.

(** With all prices of the consumed side in [0,1], the average price is
    in [0,1] and the cost is between 0 and the number of contracts filled,
    whether or not anything was filled. *)
Theorem average_price_is_a_probability orderBook input :
  pricesInUnit (selectedLevels orderBook (TradeInput.side input)) = true ->
  let r := calculateExecutionPrice orderBook input in
  0 <= ExecutionResult.averagePrice r
  /\ ExecutionResult.averagePrice r <= 1
  /\ 0 <= ExecutionResult.totalCost r
  /\ ExecutionResult.totalCost r <= ExecutionResult.filledSize r.
Proof.
  exact (execution_in_unit orderBook input).
Qed.

Lemma average_price_is_a_probability_witness :
  let r := calculateExecutionPrice Samples.twoAsks (TradeInput.mk BUY YES 120) in
  0 <= ExecutionResult.averagePrice r /\ ExecutionResult.averagePrice r <= 1.
Proof.
  destruct (average_price_is_a_probability Samples.twoAsks (TradeInput.mk BUY YES 120))
    as (H0 & H1 & _); [reflexivity|].
  split; assumption.
Defined.
End CostAndAverage.

(** ** Selling into the bids *)

Section SellSide.
Import ExecutionEngine.



End SellSide.

(** ** Price against size *)

Section PriceAgainstSize.
Import ExecutionEngine.





End PriceAgainstSize.

(** ** findMaxSizeWithinSlippage *)

Section WithinSlippage.
Import ExecutionEngine.


Lemma sumSizes_app pre suf : sumSizes (pre ++ suf) == sumSizes pre + sumSizes suf.
Proof.
  induction pre as [|l pre IH]; simpl; [lra | rewrite IH; lra].
Qed.

Lemma last_cons_default {A} (x : A) (l : list A) (d d' : A) :
  last (x :: l) d = last (x :: l) d'.
Proof.
  revert x. induction l as [|y l IH]; intros x; [reflexivity|].
  change (last (y :: l) d = last (y :: l) d'). apply IH.
Qed.

Lemma last_after_head {A} (x : A) (l : list A) (d : A) :
  last l x = last (x :: l) d.
Proof.
  destruct l as [|y l]; [reflexivity|].
  change (last (y :: l) x = last (y :: l) d). apply last_cons_default.
Qed.






(** One percent of tolerance on the stepped asks stops before the second
    level; six percent takes both. *)
Example max_size_on_two_levels :
  MaxSizeResult.maxSize (findMaxSizeWithinSlippage Samples.twoAsks BUY 1) == 50
  /\ MaxSizeResult.maxSize (findMaxSizeWithinSlippage Samples.twoAsks BUY 6) == 150
  /\ MaxSizeResult.priceAtMax (findMaxSizeWithinSlippage Samples.twoAsks BUY 6) == 0.42.
Proof. repeat split; vm_compute; reflexivity. Qed.
End WithinSlippage.

(** ** analyzeOrderBook *)

Section BookAnalysis.
Import ExecutionEngine.

(** The scan of [calculateSizeToMovePrice] adds up a prefix of levels
    whose price has not reached the target. *)
Lemma sizeBeforeTarget_prefix direction target levels : forall acc,
  exists pre suf,
    levels = pre ++ suf
    /\ Forall (fun l => notReached direction target (OrderBookLevel.price l)) pre
    /\ sizeBeforeTarget direction target levels acc == acc + sumSizes pre.
Proof.
  induction levels as [|level rest IH]; intros acc; simpl.
  - exists [], []. simpl. repeat split; try constructor. lra.
  - destruct direction; unfold Qgeb; case_test.
    + exists [], (level :: rest). simpl. repeat split; try constructor; lra.
    + destruct (IH (acc + OrderBookLevel.size level)) as (pre & suf & -> & Hall & Hsum).
      exists (level :: pre), suf. simpl. split; [reflexivity|].
      split; [constructor; assumption | rewrite Hsum; lra].
    + exists [], (level :: rest). simpl. repeat split; try constructor; lra.
    + destruct (IH (acc + OrderBookLevel.size level)) as (pre & suf & -> & Hall & Hsum).
      exists (level :: pre), suf. simpl. split; [reflexivity|].
      split; [constructor; assumption | rewrite Hsum; lra].
Qed.

Lemma calculateSizeToMovePrice_bounds levels percentMove direction :
  Forall (fun l => 0 <= OrderBookLevel.size l) levels ->
  0 <= calculateSizeToMovePrice levels percentMove direction
  /\ calculateSizeToMovePrice levels percentMove direction <= depthTotal levels.
Proof.
  intros Hnonneg. unfold calculateSizeToMovePrice.
  destruct levels as [|first rest].
  - unfold depthTotal. simpl. split; lra.
  - set (target := match direction with
                   | up => OrderBookLevel.price first * (1 + percentMove)
                   | down => OrderBookLevel.price first * (1 - percentMove)
                   end).
    destruct (sizeBeforeTarget_prefix direction target (first :: rest) 0)
      as (pre & suf & Hsplit & _ & Hsum).
    assert (Hdepth : depthTotal (first :: rest) == sumSizes pre + sumSizes suf)
      by (rewrite depthTotal_sum, Hsplit; apply sumSizes_app).
    rewrite Hsplit in Hnonneg. apply Forall_app in Hnonneg as [Hpre Hsuf].
    pose proof (sumSizes_nonneg pre Hpre). pose proof (sumSizes_nonneg suf Hsuf).
    rewrite Hdepth, Hsum. split; lra.
Qed.

Lemma depthTotal_nonneg levels :
  Forall (fun l => 0 <= OrderBookLevel.size l) levels -> 0 <= depthTotal levels.
Proof.
  intros H. rewrite depthTotal_sum. apply sumSizes_nonneg, H.
Qed.

(** On a book whose sizes are all at least 0, [analyzeOrderBook] reports
    depths of at least 0, an imbalance in [-1,1] whose sign is that of
    the difference of the depths, and 1-percent sizes between 0 and the
    depth of their side. *)
Theorem analysis_stays_in_bounds orderBook :
  allSizesNonneg (OrderBook.bids orderBook) = true ->
  allSizesNonneg (OrderBook.asks orderBook) = true ->
  let a := analyzeOrderBook orderBook in
  0 <= bidDepthTotal a
  /\ 0 <= askDepthTotal a
  /\ - (1) <= depthImbalance a
  /\ depthImbalance a <= 1
  /\ (0 < depthImbalance a <-> askDepthTotal a < bidDepthTotal a)
  /\ 0 <= sizeToMoveBid1Percent a
  /\ sizeToMoveBid1Percent a <= bidDepthTotal a
  /\ 0 <= sizeToMoveAsk1Percent a
  /\ sizeToMoveAsk1Percent a <= askDepthTotal a.
Proof.
  intros Hbids Hasks. cbv zeta.
  apply allSizesNonneg_Forall in Hbids. apply allSizesNonneg_Forall in Hasks.
  pose proof (depthTotal_nonneg _ Hbids) as Hb.
  pose proof (depthTotal_nonneg _ Hasks) as Ha.
  pose proof (calculateSizeToMovePrice_bounds _ 0.01 down Hbids) as [Hb0 Hb1].
  pose proof (calculateSizeToMovePrice_bounds _ 0.01 up Hasks) as [Ha0 Ha1].
  unfold analyzeOrderBook.
  cbn [bidDepthTotal askDepthTotal depthImbalance sizeToMoveBid1Percent
       sizeToMoveAsk1Percent].
  set (b := depthTotal (OrderBook.bids orderBook)) in *.
  set (k := depthTotal (OrderBook.asks orderBook)) in *.
  split; [assumption|]. split; [assumption|].
  assert (Himb : - (1) <= (if Qgtb (b + k) 0 then (b - k) / (b + k) else 0)
                 /\ (if Qgtb (b + k) 0 then (b - k) / (b + k) else 0) <= 1
                 /\ (0 < (if Qgtb (b + k) 0 then (b - k) / (b + k) else 0) <-> k < b)).
  { case_test.
    - split; [apply Qle_shift_div_l; [assumption | lra]|].
      split; [apply Qle_shift_div_r; [assumption | lra]|].
      split; intros H.
      + apply Qnot_le_lt. intros Hle.
        assert ((b - k) / (b + k) <= 0)
          by (apply Qle_shift_div_r; [assumption | lra]).
        lra.
      + apply Qlt_shift_div_l; [assumption | lra].
    - split; [lra|]. split; [lra|]. split; intros; lra. }
  destruct Himb as (H1 & H2 & H3).
  repeat split; try assumption; apply H3.
Qed.

Lemma analysis_stays_in_bounds_witness :
  let a := analyzeOrderBook
             (OrderBook.mk [OrderBookLevel.mk 0.38 30]
                [OrderBookLevel.mk 0.40 50; OrderBookLevel.mk 0.42 100]
                0 "token" "market") in
  - (1) <= depthImbalance a /\ depthImbalance a <= 1.
Proof.
  destruct (analysis_stays_in_bounds
              (OrderBook.mk [OrderBookLevel.mk 0.38 30]
                 [OrderBookLevel.mk 0.40 50; OrderBookLevel.mk 0.42 100]
                 0 "token" "market") eq_refl eq_refl)
    as (_ & _ & Hlow & Hhigh & _).
  split; assumption.
Defined.

(** A book without any level: bid 0, ask 1, a spread of 200 percent of
    the midpoint, and no depth. *)
Example analysis_of_empty_book :
  let a := analyzeOrderBook (OrderBook.mk [] [] 0 "token" "market") in
  bestBid a == 0 /\ bestAsk a == 1 /\ spread a == 1 /\ midpoint a == 0.5
  /\ spreadPercent a == 200 /\ depthImbalance a == 0
  /\ levelCount a == 0 /\ averageLevelSize a == 0.
Proof. cbv zeta. repeat split; vm_compute; reflexivity. Qed.
End BookAnalysis.

(** ** Orders below the 1-percent size *)

Section BelowMoveSize.
Import ExecutionEngine.



End BelowMoveSize.

(** ** The payoff of an executed order *)

Section ExecutedPayoff.
Import ExecutionEngine PayoffCalculator.


(** On the stepped asks a BUY YES of 120 costs 49.4: it stands to gain
    70.6 and to lose 49.4. *)
Example payoff_of_stepped_buy :
  let payoff := calculatePayoff
                  (calculateExecutionPrice Samples.twoAsks (TradeInput.mk BUY YES 120)) in
  PayoffResult.maxGain payoff == 70.6 /\ PayoffResult.maxLoss payoff == - 49.4
  /\ PayoffResult.capitalAtRisk payoff == 49.4
  /\ PayoffResult.returnIfNo payoff == - 100.
Proof. cbv zeta. repeat split; vm_compute; reflexivity. Qed.
End ExecutedPayoff.

(** ** calculateCombinedPayoff *)

Section CombinedPayoffs.
Import ExecutionEngine PayoffCalculator.





(** On the cheap market, 100 contracts of each outcome cost 90 and pay 10
    either way. *)
Example buying_both_outcomes_sample :
  let combined :=
    calculateCombinedPayoff
      [calculateExecutionPrice (MarketOrderBooks.yes Samples.cheapA)
         (TradeInput.mk BUY YES 100);
       calculateExecutionPrice (MarketOrderBooks.no Samples.cheapA)
         (TradeInput.mk BUY NO 100)] in
  CombinedPayoff.totalCost combined == 90
  /\ CombinedPayoff.maxLoss combined == 10 /\ CombinedPayoff.maxGain combined == 10.
Proof. cbv zeta. repeat split; vm_compute; reflexivity. Qed.
End CombinedPayoffs.

(** ** More on calculateKellyFraction *)

Section KellyFacts.
Import PayoffCalculator.



(** Buying and selling the same outcome have opposite edges, so the Kelly
    fraction of at least one of the two is 0: the sizing never recommends
    both sides of one contract. *)
Theorem kelly_takes_one_side trueProb marketPrice side outcome :
  0 < marketPrice -> marketPrice < 1 ->
  let k := calculateKellyFraction trueProb marketPrice side outcome in
  let k' := calculateKellyFraction trueProb marketPrice (otherSide side) outcome in
  edge k' == - edge k
  /\ (fraction k == 0 \/ fraction k' == 0).
Proof.
  intros Hm0 Hm1. cbv zeta.
  destruct (kelly_is_edge_over_payoff trueProb marketPrice side outcome Hm0 Hm1)
    as (Hw & _ & Hk).
  destruct (kelly_is_edge_over_payoff trueProb marketPrice (otherSide side) outcome Hm0 Hm1)
    as (Hw' & _ & Hk').
  assert (Hopp : edge (calculateKellyFraction trueProb marketPrice (otherSide side) outcome)
                 == - edge (calculateKellyFraction trueProb marketPrice side outcome))
    by (destruct side, outcome; simpl; ring).
  split; [exact Hopp|].
  unfold calculateKellyFraction at 1 2. cbn [fraction]. rewrite Hk, Hk'.
  set (e := edge (calculateKellyFraction trueProb marketPrice side outcome)) in *.
  set (e' := edge (calculateKellyFraction trueProb marketPrice (otherSide side) outcome)) in *.
  destruct (Qlt_le_dec 0 e) as [Hpos | Hneg].
  - right. apply Q.max_l. apply Qle_shift_div_r; [assumption | lra].
  - left. apply Q.max_l. apply Qle_shift_div_r; [assumption | lra].
Qed.

Lemma kelly_takes_one_side_witness :
  fraction (calculateKellyFraction 0.6 0.4 BUY YES) == 0
  \/ fraction (calculateKellyFraction 0.6 0.4 SELL YES) == 0.
Proof.
  destruct (kelly_takes_one_side 0.6 0.4 BUY YES eq_refl eq_refl) as [_ H].
  exact H.
Defined.


(** For a position in NO the entry price is the breakeven probability of
    NO, not of YES: at an estimate of 0.4 for YES a BUY NO at 0.4 keeps an
    edge. *)
Example edge_at_entry_price_for_no :
  edge (calculateKellyFraction (calculateBreakevenProbability BUY NO 0.4) 0.4 BUY NO)
  == 0.2.
Proof. vm_compute. reflexivity. Qed.

End KellyFacts.

(** ** detectApparentArbitrage and checkDominanceViolations *)

Section ArbitrageSignals.
Import ExecutionEngine ArbitrageAnalyzer.

(** [detectApparentArbitrage] reports an arbitrage exactly when one of
    the two markets has a YES + NO sum under 0.98.  Its edge is never
    negative: above 0.02 with an arbitrage, and otherwise either 0 or
    above 0.05 (a cross-market discrepancy). *)
Theorem arbitrage_edge_is_never_negative execAYes execANo execBYes execBNo :
  let arb := detectApparentArbitrage execAYes execANo execBYes execBNo in
  let sumA := ExecutionResult.averagePrice execAYes + ExecutionResult.averagePrice execANo in
  let sumB := ExecutionResult.averagePrice execBYes + ExecutionResult.averagePrice execBNo in
  (ApparentArbitrage.hasArbitrage arb = true <-> sumA < 0.98 \/ sumB < 0.98)
  /\ 0 <= ApparentArbitrage.arbitrageEdge arb
  /\ (ApparentArbitrage.hasArbitrage arb = true -> 0.02 < ApparentArbitrage.arbitrageEdge arb)
  /\ (ApparentArbitrage.hasArbitrage arb = false ->
      ApparentArbitrage.arbitrageEdge arb == 0 \/ 0.05 < ApparentArbitrage.arbitrageEdge arb)
  /\ Qabs (ApparentArbitrage.arbitrageEdge arb) == ApparentArbitrage.arbitrageEdge arb.
Proof.
  cbv zeta. unfold detectApparentArbitrage.
  set (sumA := ExecutionResult.averagePrice execAYes + ExecutionResult.averagePrice execANo).
  set (sumB := ExecutionResult.averagePrice execBYes + ExecutionResult.averagePrice execBNo).
  set (yesDiff := Qabs (ExecutionResult.averagePrice execAYes
                        - ExecutionResult.averagePrice execBYes)).
  set (noDiff := Qabs (ExecutionResult.averagePrice execANo
                       - ExecutionResult.averagePrice execBNo)).
  assert (Hy : 0 <= yesDiff) by apply Qabs_nonneg.
  assert (Hn : 0 <= noDiff) by apply Qabs_nonneg.
  assert (Hgoal : forall (h : bool) (e : number),
            (h = true <-> sumA < 0.98 \/ sumB < 0.98) ->
            (h = true -> 0.02 < e) ->
            (h = false -> e == 0 \/ 0.05 < e) ->
            (h = true <-> sumA < 0.98 \/ sumB < 0.98)
            /\ 0 <= e /\ (h = true -> 0.02 < e)
            /\ (h = false -> e == 0 \/ 0.05 < e) /\ Qabs e == e).
  { intros h e H1 H2 H3.
    assert (He : 0 <= e).
    { destruct h; [specialize (H2 eq_refl); lra|].
      destruct (H3 eq_refl) as [H0 | H0]; lra. }
    split; [exact H1|]. split; [exact He|]. split; [exact H2|].
    split; [exact H3|]. apply Qabs_pos. exact He. }
  destruct (Qltb sumA 0.98) eqn:EA.
  { apply Qltb_true in EA. cbn [ApparentArbitrage.hasArbitrage ApparentArbitrage.arbitrageEdge].
    apply Hgoal; [split; auto | intros; lra | discriminate]. }
  apply Qltb_false in EA.
  destruct (Qltb sumB 0.98) eqn:EB.
  { apply Qltb_true in EB. cbn [ApparentArbitrage.hasArbitrage ApparentArbitrage.arbitrageEdge].
    apply Hgoal; [split; auto | intros; lra | discriminate]. }
  apply Qltb_false in EB.
  destruct (Qgtb yesDiff 0.05 || Qgtb noDiff 0.05) eqn:ED;
    cbn [ApparentArbitrage.hasArbitrage ApparentArbitrage.arbitrageEdge];
    apply Hgoal; try discriminate.
  - split; [discriminate | intros [H | H]; lra].
  - intros _. right. apply orb_true_iff in ED as [E | E]; apply Qgtb_true in E.
    + apply Qlt_le_trans with yesDiff; [assumption | apply Q.le_max_l].
    + apply Qlt_le_trans with noDiff; [assumption | apply Q.le_max_r].
  - split; [discriminate | intros [H | H]; lra].
  - intros _. left. reflexivity.
Qed.

(** The four execution prices of a comparison. *)
Lemma compareMarkets_fields marketA marketB tradeSize :
  let execAYes := calculateExecutionPrice (MarketOrderBooks.yes marketA)
                    (TradeInput.mk BUY YES tradeSize) in
  let execANo := calculateExecutionPrice (MarketOrderBooks.no marketA)
                   (TradeInput.mk BUY NO tradeSize) in
  let execBYes := calculateExecutionPrice (MarketOrderBooks.yes marketB)
                    (TradeInput.mk BUY YES tradeSize) in
  let execBNo := calculateExecutionPrice (MarketOrderBooks.no marketB)
                   (TradeInput.mk BUY NO tradeSize) in
  let r := compareMarkets marketA marketB tradeSize in
  executionPriceYes (ArbitrageAnalyzer.marketA r) = ExecutionResult.averagePrice execAYes
  /\ executionPriceNo (ArbitrageAnalyzer.marketA r) = ExecutionResult.averagePrice execANo
  /\ executionPriceYes (ArbitrageAnalyzer.marketB r) = ExecutionResult.averagePrice execBYes
  /\ executionPriceNo (ArbitrageAnalyzer.marketB r) = ExecutionResult.averagePrice execBNo
  /\ apparentArbitrage r
     = ApparentArbitrage.hasArbitrage
         (detectApparentArbitrage execAYes execANo execBYes execBNo)
  /\ arbitrageEdge r
     = ApparentArbitrage.arbitrageEdge
         (detectApparentArbitrage execAYes execANo execBYes execBNo)
  /\ dominanceViolation r
     = hasViolation (checkDominanceViolations marketA marketB
                       execAYes execANo execBYes execBNo).
Proof.
  cbv zeta. unfold compareMarkets. repeat split.
Qed.

(** What [checkDominanceViolations] answers, by cases. *)
Lemma checkDominanceViolations_cases marketA marketB execAYes execANo execBYes execBNo :
  let sumA := ExecutionResult.averagePrice execAYes + ExecutionResult.averagePrice execANo in
  let sumB := ExecutionResult.averagePrice execBYes + ExecutionResult.averagePrice execBNo in
  let invalid p := p < 0 \/ 1 < p in
  hasViolation (checkDominanceViolations marketA marketB execAYes execANo execBYes execBNo)
  = true
  <-> 1.05 < sumA \/ 1.05 < sumB
      \/ invalid (ExecutionResult.averagePrice execAYes)
      \/ invalid (ExecutionResult.averagePrice execANo)
      \/ invalid (ExecutionResult.averagePrice execBYes)
      \/ invalid (ExecutionResult.averagePrice execBNo).
Proof.
  cbv zeta. unfold checkDominanceViolations.
  set (a := ExecutionResult.averagePrice execAYes).
  set (b := ExecutionResult.averagePrice execANo).
  set (c := ExecutionResult.averagePrice execBYes).
  set (d := ExecutionResult.averagePrice execBNo).
  destruct (Qgtb (a + b) 1.05) eqn:EA.
  { apply Qgtb_true in EA. simpl. split; auto. }
  apply Qgtb_false in EA.
  destruct (Qgtb (c + d) 1.05) eqn:EB.
  { apply Qgtb_true in EB. simpl. split; auto. }
  apply Qgtb_false in EB.
  assert (Hinv : forall p, Qltb p 0 || Qgtb p 1 = true <-> p < 0 \/ 1 < p).
  { intros p. rewrite orb_true_iff, Qltb_true, Qgtb_true. reflexivity. }
  simpl find.
  destruct (Qltb a 0 || Qgtb a 1) eqn:Ha.
  { simpl. apply Hinv in Ha. split; auto 10. }
  destruct (Qltb b 0 || Qgtb b 1) eqn:Hb.
  { simpl. apply Hinv in Hb. split; auto 10. }
  destruct (Qltb c 0 || Qgtb c 1) eqn:Hc.
  { simpl. apply Hinv in Hc. split; auto 10. }
  destruct (Qltb d 0 || Qgtb d 1) eqn:Hd.
  { simpl. apply Hinv in Hd. split; auto 10. }
  simpl. split; [discriminate|].
  intros [H | [H | [H | [H | [H | H]]]]]; try lra;
    apply Hinv in H; congruence.
Qed.

(** When the asks of the four books have prices in [0,1], the price check
    of the dominance test never fires: [compareMarkets] reports a
    violation exactly when the YES + NO sum of one of the two markets
    exceeds 1.05. *)
Theorem dominance_is_an_overpriced_sum marketA marketB tradeSize :
  asksInUnit marketA marketB = true ->
  let r := compareMarkets marketA marketB tradeSize in
  dominanceViolation r = true
  <-> 1.05 < summarySum (ArbitrageAnalyzer.marketA r)
      \/ 1.05 < summarySum (ArbitrageAnalyzer.marketB r).
Proof.
  intros Hunit. cbv zeta.
  unfold asksInUnit in Hunit.
  apply andb_true_iff in Hunit as [Hunit HBN].
  apply andb_true_iff in Hunit as [Hunit HBY].
  apply andb_true_iff in Hunit as [HAY HAN].
  destruct (compareMarkets_fields marketA marketB tradeSize)
    as (H1 & H2 & H3 & H4 & _ & _ & H7).
  unfold summarySum. rewrite H1, H2, H3, H4, H7.
  rewrite checkDominanceViolations_cases.
  destruct (execution_in_unit (MarketOrderBooks.yes marketA)
              (TradeInput.mk BUY YES tradeSize) HAY) as (? & ? & _).
  destruct (execution_in_unit (MarketOrderBooks.no marketA)
              (TradeInput.mk BUY NO tradeSize) HAN) as (? & ? & _).
  destruct (execution_in_unit (MarketOrderBooks.yes marketB)
              (TradeInput.mk BUY YES tradeSize) HBY) as (? & ? & _).
  destruct (execution_in_unit (MarketOrderBooks.no marketB)
              (TradeInput.mk BUY NO tradeSize) HBN) as (? & ? & _).
  split.
  - intros [Hv | [Hv | [Hv | [Hv | [Hv | Hv]]]]]; auto; destruct Hv; lra.
  - intros [Hv | Hv]; auto.
Qed.

Lemma dominance_is_an_overpriced_sum_witness :
  dominanceViolation (compareMarkets Samples.apartA Samples.apartB 100) = true
  <-> 1.05 < summarySum (ArbitrageAnalyzer.marketA
                           (compareMarkets Samples.apartA Samples.apartB 100))
      \/ 1.05 < summarySum (ArbitrageAnalyzer.marketB
                              (compareMarkets Samples.apartA Samples.apartB 100)).
Proof.
  apply (dominance_is_an_overpriced_sum Samples.apartA Samples.apartB 100).
  reflexivity.
Defined.
End ArbitrageSignals.

(** ** analyzeMarketEfficiency *)

Section Efficiency.
Import ExecutionEngine ArbitrageAnalyzer.

Lemma detectApparentArbitrage_hasArbitrage execAYes execANo execBYes execBNo :
  ApparentArbitrage.hasArbitrage
    (detectApparentArbitrage execAYes execANo execBYes execBNo)
  = Qltb (ExecutionResult.averagePrice execAYes + ExecutionResult.averagePrice execANo) 0.98
    || Qltb (ExecutionResult.averagePrice execBYes + ExecutionResult.averagePrice execBNo) 0.98.
Proof.
  unfold detectApparentArbitrage.
  destruct (Qltb (ExecutionResult.averagePrice execAYes
                  + ExecutionResult.averagePrice execANo) 0.98); [reflexivity|].
  destruct (Qltb (ExecutionResult.averagePrice execBYes
                  + ExecutionResult.averagePrice execBNo) 0.98); [reflexivity|].
  simpl.
  destruct (Qgtb _ 0.05 || Qgtb _ 0.05); reflexivity.
Qed.

Lemma analyzeMarketEfficiency_fields market tradeSize :
  let execYes := calculateExecutionPrice (MarketOrderBooks.yes market)
                   (TradeInput.mk BUY YES tradeSize) in
  let execNo := calculateExecutionPrice (MarketOrderBooks.no market)
                  (TradeInput.mk BUY NO tradeSize) in
  let eff := analyzeMarketEfficiency market tradeSize in
  MarketEfficiency.sum eff
  = ExecutionResult.averagePrice execYes + ExecutionResult.averagePrice execNo
  /\ MarketEfficiency.vigorish eff = (MarketEfficiency.sum eff - 1) * 100
  /\ MarketEfficiency.isEfficient eff = negb (Qltb (MarketEfficiency.sum eff) 0.98).
Proof.
  cbv zeta. unfold analyzeMarketEfficiency.
  destruct (Qltb _ 0.98) eqn:E1.
  - cbn [MarketEfficiency.sum MarketEfficiency.vigorish MarketEfficiency.isEfficient].
    rewrite E1. repeat split.
  - destruct (Qgtb _ 1.02);
      cbn [MarketEfficiency.sum MarketEfficiency.vigorish MarketEfficiency.isEfficient];
      rewrite E1; repeat split.
Qed.

(** A comparison reports an apparent arbitrage exactly when
    [analyzeMarketEfficiency] calls one of the two markets inefficient at
    the same size, that is when its YES + NO sum is under 0.98.  Market A
    is looked at first: when it is inefficient the edge of the comparison
    is 1 minus its sum, which is its vigorish with the sign changed, and
    market B gives the edge only when A is efficient. *)
Theorem inefficient_market_is_an_arbitrage marketA marketB tradeSize :
  let effA := analyzeMarketEfficiency marketA tradeSize in
  let effB := analyzeMarketEfficiency marketB tradeSize in
  let r := compareMarkets marketA marketB tradeSize in
  (MarketEfficiency.isEfficient effA = false <-> MarketEfficiency.sum effA < 0.98)
  /\ (apparentArbitrage r = true
      <-> MarketEfficiency.isEfficient effA = false
          \/ MarketEfficiency.isEfficient effB = false)
  /\ (MarketEfficiency.isEfficient effA = false ->
      arbitrageEdge r == 1 - MarketEfficiency.sum effA
      /\ MarketEfficiency.vigorish effA == - (arbitrageEdge r * 100))
  /\ (MarketEfficiency.isEfficient effA = true ->
      MarketEfficiency.isEfficient effB = false ->
      arbitrageEdge r == 1 - MarketEfficiency.sum effB
      /\ MarketEfficiency.vigorish effB == - (arbitrageEdge r * 100)).
Proof.
  cbv zeta.
  destruct (analyzeMarketEfficiency_fields marketA tradeSize) as (HsA & HvA & HeA).
  destruct (analyzeMarketEfficiency_fields marketB tradeSize) as (HsB & HvB & HeB).
  destruct (compareMarkets_fields marketA marketB tradeSize)
    as (_ & _ & _ & _ & Harb & Hedge & _).
  rewrite Harb, Hedge, detectApparentArbitrage_hasArbitrage, <- HsA, <- HsB.
  rewrite HeA, HeB, HvA, HvB.
  unfold detectApparentArbitrage. cbv zeta. rewrite <- HsA, <- HsB.
  destruct (Qltb (MarketEfficiency.sum (analyzeMarketEfficiency marketA tradeSize)) 0.98)
    eqn:EA.
  - pose proof EA as HA. apply Qltb_true in HA.
    cbn [ApparentArbitrage.arbitrageEdge negb orb].
    split; [split; [intros _; exact HA | reflexivity]|].
    split; [split; [left; reflexivity | reflexivity]|].
    split; [intros _; split; [reflexivity | ring] | discriminate].
  - pose proof EA as HA. apply Qltb_false in HA.
    cbn [negb orb].
    split; [split; [discriminate | intros Hlt; lra]|].
    destruct (Qltb (MarketEfficiency.sum (analyzeMarketEfficiency marketB tradeSize)) 0.98)
      eqn:EB.
    + cbn [ApparentArbitrage.arbitrageEdge negb].
      split; [split; [right; reflexivity | reflexivity]|].
      split; [discriminate|]. intros _ _. split; [reflexivity | ring].
    + cbn [negb].
      split; [split; [discriminate | intros [Hf | Hf]; discriminate]|].
      split; discriminate.
Qed.
End Efficiency.

(** ** findArbExhaustionPoint *)

Section Exhaustion.
Import ExecutionEngine ArbitrageAnalyzer.

Variables orderBookA orderBookB : OrderBook.t.
Variable side : TradeSide.
Variable initialEdge : number.

Local Abbreviation survives := (edgeSurvives orderBookA orderBookB side initialEdge).
Local Abbreviation edgeAt := (exhaustionEdgeAt orderBookA orderBookB side initialEdge).
Local Abbreviation scan := (exhaustionScan orderBookA orderBookB side initialEdge).

Lemma exhaustionScan_prefix sizes : forall lastViableSize lastEdge,
  exists pre suf,
    sizes = pre ++ suf
    /\ Forall survives pre
    /\ ArbExhaustion.exhaustionSize (scan sizes lastViableSize lastEdge)
       = last pre lastViableSize
    /\ ArbExhaustion.edgeAtExhaustion (scan sizes lastViableSize lastEdge)
       = match pre with
         | [] => lastEdge
         | _ => edgeAt (last pre lastViableSize) / 100
         end
    /\ match suf with
       | [] => True
       | size :: _ => ~ survives size
       end.
Proof.
  induction sizes as [|size rest IH]; intros lastViableSize lastEdge.
  - exists [], []. simpl. repeat split. constructor.
  - simpl. destruct (Qgtb (exhaustionEdgeAt orderBookA orderBookB side initialEdge size) 0)
      eqn:E.
    + apply Qgtb_true in E.
      destruct (IH size (exhaustionEdgeAt orderBookA orderBookB side initialEdge size / 100))
        as (pre & suf & Hsplit & Hpre & Hsize & Hedge & Hsuf).
      exists (size :: pre), suf.
      split; [simpl; f_equal; exact Hsplit|].
      split; [constructor; [exact E | exact Hpre]|].
      split; [rewrite Hsize; apply last_after_head|].
      split; [|exact Hsuf].
      rewrite Hedge. destruct pre as [|p pre']; [reflexivity|].
      rewrite (last_after_head size (p :: pre') lastViableSize). reflexivity.
    + apply Qgtb_false in E.
      exists [], (size :: rest). simpl. repeat split; [constructor|].
      unfold edgeSurvives. lra.
Qed.







(** Without an edge [findArbExhaustionPoint] answers (0, 0).  With one,
    it walks the ladder 10, 50, ..., 10000 while the slippage of the two
    books leaves some of the edge: the sizes it passed all keep a positive
    edge, the next one (if any) does not, the answer is the last size
    passed (0 when the first rung already fails) with the edge left there
    (the initial edge when no rung was passed), and that edge is positive. *)
Theorem exhaustion_point_on_the_ladder :
  let r := findArbExhaustionPoint orderBookA orderBookB side initialEdge in
  (initialEdge <= 0 ->
   ArbExhaustion.exhaustionSize r = 0 /\ ArbExhaustion.edgeAtExhaustion r = 0)
  /\ (0 < initialEdge ->
      0 < ArbExhaustion.edgeAtExhaustion r
      /\ exists passed others,
           testSizes = passed ++ others
           /\ Forall survives passed
           /\ ArbExhaustion.exhaustionSize r = last passed 0
           /\ ArbExhaustion.edgeAtExhaustion r
              = match passed with
                | [] => initialEdge
                | _ => edgeAt (ArbExhaustion.exhaustionSize r) / 100
                end
           /\ match others with
              | [] => True
              | size :: _ => ~ survives size
              end).
Proof.
  cbv zeta. unfold findArbExhaustionPoint. split.
  - intros Hedge. apply Qle_bool_iff in Hedge. rewrite Hedge. split; reflexivity.
  - intros Hedge. rewrite (proj2 (Qle_bool_false initialEdge 0) Hedge).
    destruct (exhaustionScan_prefix testSizes 0 initialEdge)
      as (pre & suf & Hsplit & Hpre & Hsize & Hleft & Hsuf).
    split.
    + rewrite Hleft. destruct pre as [|p pre'] using rev_ind; [exact Hedge|].
      assert (Hp : survives p).
      { rewrite Forall_forall in Hpre. apply Hpre, in_or_app. right. left. reflexivity. }
      rewrite last_last.
      destruct (pre' ++ [p]) eqn:Hnil; [destruct pre'; discriminate|].
      unfold edgeSurvives in Hp.
      apply Qlt_shift_div_l; [reflexivity | lra].
    + exists pre, suf.
      split; [exact Hsplit|]. split; [exact Hpre|]. split; [exact Hsize|].
      split; [|exact Hsuf].
      rewrite Hleft, Hsize. reflexivity.
Qed.

End Exhaustion.


(** With an edge of 0.05 the two stepped books pass the rungs 10 and 50
    only: at 100 contracts the slippage of the two legs is the whole
    edge. *)
Example exhaustion_on_stepped_books :
  let r := ArbitrageAnalyzer.findArbExhaustionPoint
             (MarketOrderBooks.yes Samples.steppedA)
             (MarketOrderBooks.yes Samples.steppedB) BUY 0.05 in
  ArbitrageAnalyzer.ArbExhaustion.exhaustionSize r == 50
  /\ ArbitrageAnalyzer.ArbExhaustion.edgeAtExhaustion r == 0.05.
Proof. vm_compute. split; reflexivity. Qed.

(** ** compareMarkets with its two markets exchanged *)

Section SwappedComparison.
Import ExecutionEngine ArbitrageAnalyzer.


(** The edge is not kept: when both markets are underpriced, it is the
    one of the market given first. *)
Example edge_depends_on_market_order :
  let marketA := Samples.market (Samples.oneAsk 0.40 1000) (Samples.oneAsk 0.50 1000) in
  let marketB := Samples.market (Samples.oneAsk 0.30 1000) (Samples.oneAsk 0.50 1000) in
  arbitrageEdge (compareMarkets marketA marketB 100) == 0.1
  /\ arbitrageEdge (compareMarkets marketB marketA 100) == 0.2.
Proof. vm_compute. split; reflexivity. Qed.
End SwappedComparison.

(** ** calculateConfidence and calculateArbitrageOpportunity *)

Section Confidence.
Import DiscrepancyEngine.

Lemma calculateConfidence_bounds markets0 spread :
  0 <= calculateConfidence markets0 spread
  /\ calculateConfidence markets0 spread <= 1
  /\ (0.03 <= spread -> 0.2 <= calculateConfidence markets0 spread)
  /\ (0.05 <= spread -> 0.4 <= calculateConfidence markets0 spread)
  /\ (spread < 0.03 -> calculateConfidence markets0 spread <= 0.6).
Proof.
  unfold calculateConfidence, HIGH_CONFIDENCE_THRESHOLD, MIN_SPREAD_THRESHOLD, Qgeb.
  cbv zeta.
  destruct (Qle_bool 0.05 spread) eqn:E5;
    [apply Qle_bool_iff in E5 | apply Qle_bool_false in E5];
  (destruct (Qle_bool 0.03 spread) eqn:E3;
    [apply Qle_bool_iff in E3 | apply Qle_bool_false in E3]);
  repeat match goal with
         | |- context [if ?b then _ else _] => destruct b
         end;
  match goal with
  | |- context [Qmin 1 ?c] => case_min 1 c; rewrite Hmin
  end;
  repeat split; intros; lra.
Qed.

Lemma analyzeGroup_confidence searchNews group d :
  analyzeGroup searchNews group = Some d ->
  0.03 <= DiscrepancyResult.maxSpread d
  /\ DiscrepancyResult.confidence d
     = calculateConfidence (markets group) (DiscrepancyResult.maxSpread d)
  /\ DiscrepancyResult.likelyDrivers d = firstn 3 (searchNews (eventTitle group))
  /\ DiscrepancyResult.eventTitle d = eventTitle group.
Proof.
  unfold analyzeGroup.
  destruct (List.map NormalizedMarket.yesProbability (markets group)) as [|y ys];
    [discriminate|].
  cbv zeta. destruct (Qltb _ MIN_SPREAD_THRESHOLD) eqn:E; [discriminate|].
  apply Qltb_false in E. unfold MIN_SPREAD_THRESHOLD in E.
  intros H. injection H as <-. simpl. repeat split. exact E.
Qed.

(** Every discrepancy that [detectDiscrepancies] reports, on any input,
    has a confidence between 0.2 and 1, of at least 0.4 when its spread
    reaches 0.05, and at most three likely drivers, which are the first
    news items found for its title. *)
Theorem reported_confidence_is_bounded searchNews markets0 :
  Forall (fun d =>
            0.2 <= DiscrepancyResult.confidence d
            /\ DiscrepancyResult.confidence d <= 1
            /\ (0.05 <= DiscrepancyResult.maxSpread d ->
                0.4 <= DiscrepancyResult.confidence d)
            /\ (List.length (DiscrepancyResult.likelyDrivers d) <= 3)%nat
            /\ DiscrepancyResult.likelyDrivers d
               = firstn 3 (searchNews (DiscrepancyResult.eventTitle d)))
    (detectDiscrepancies searchNews markets0).
Proof.
  unfold detectDiscrepancies. apply arraySort_Forall.
  apply collect_Forall; [constructor|].
  intros g d _ _ Han _.
  destruct (analyzeGroup_confidence searchNews g d Han) as (Hspread & Hconf & Hnews & Htitle).
  destruct (calculateConfidence_bounds (markets g) (DiscrepancyResult.maxSpread d))
    as (_ & Hle & Hlow & Hhigh & _).
  rewrite Hconf, Hnews, Htitle.
  split; [apply Hlow; exact Hspread|]. split; [exact Hle|]. split; [exact Hhigh|].
  split; [apply firstn_le_length | reflexivity].
Qed.

End Confidence.

(** ** The adapters: fetchOrderBook and the Kalshi markets *)

Section SortPermutes.
Context {A : Type} (before : A -> A -> bool).

Lemma insertSorted_Permutation x l : Permutation (insertSorted before x l) (x :: l).
Proof.
  induction l as [|y rest IH]; simpl; [reflexivity|].
  destruct (before x y); [reflexivity|].
  rewrite IH. apply perm_swap.
Qed.

Lemma arraySort_Permutation l : Permutation (arraySort before l) l.
Proof.
  induction l as [|x rest IH]; simpl; [reflexivity|].
  rewrite insertSorted_Permutation. constructor. exact IH.
Qed.
End SortPermutes.

Section Adapters.
Import ExecutionEngine ClobClient KalshiService.

Lemma sorted_ascendingb levels :
  StronglySorted (fun a b => OrderBookLevel.price a <= OrderBookLevel.price b) levels ->
  ascendingb levels = true.
Proof.
  induction 1 as [|a rest Hs IH Ha]; [reflexivity|].
  destruct rest as [|b rest']; [reflexivity|].
  change (Qle_bool (OrderBookLevel.price a) (OrderBookLevel.price b)
          && ascendingb (b :: rest') = true).
  rewrite IH, andb_true_r. apply Qle_bool_iff. inversion Ha; assumption.
Qed.

Lemma sorted_descendingb levels :
  StronglySorted (fun a b => OrderBookLevel.price b <= OrderBookLevel.price a) levels ->
  descendingb levels = true.
Proof.
  induction 1 as [|a rest Hs IH Ha]; [reflexivity|].
  destruct rest as [|b rest']; [reflexivity|].
  change (Qle_bool (OrderBookLevel.price b) (OrderBookLevel.price a)
          && descendingb (b :: rest') = true).
  rewrite IH, andb_true_r. apply Qle_bool_iff. inversion Ha; assumption.
Qed.

Lemma askBefore_spec a b :
  askBefore a b = true <-> OrderBookLevel.price a <= OrderBookLevel.price b.
Proof. unfold askBefore. rewrite Qle_bool_iff. split; intros; lra. Qed.

Lemma bidBefore_spec a b :
  bidBefore a b = true <-> OrderBookLevel.price b <= OrderBookLevel.price a.
Proof. unfold bidBefore. rewrite Qle_bool_iff. split; intros; lra. Qed.

Lemma kept_levels_have_size (before : OrderBookLevel.t -> OrderBookLevel.t -> bool) levels :
  allSizesPositive (arraySort before (List.filter hasSize levels)) = true.
Proof.
  unfold allSizesPositive. apply forallb_forall. apply Forall_forall.
  apply arraySort_Forall. apply Forall_forall. intros l Hl.
  apply filter_In in Hl. apply Hl.
Qed.

(** Whatever levels a CLOB response holds, the book that [fetchOrderBook]
    builds is well formed on both sides: asks by ascending price, bids by
    descending price, every size positive.  Its levels are the levels of
    the response that have a size, in another order. *)
Theorem fetched_book_is_well_formed data :
  let book := fetchOrderBook data in
  sideWellFormed book BUY = true
  /\ sideWellFormed book SELL = true
  /\ Permutation (OrderBook.asks book) (List.filter hasSize (OrderBookResponse.asks data))
  /\ Permutation (OrderBook.bids book) (List.filter hasSize (OrderBookResponse.bids data)).
Proof.
  cbv zeta. unfold fetchOrderBook, sideWellFormed. cbn [OrderBook.asks OrderBook.bids].
  split; [|split; [|split; apply arraySort_Permutation]].
  - rewrite kept_levels_have_size, andb_true_r. apply sorted_ascendingb.
    eapply StronglySorted_weaken; [apply askBefore_spec|].
    apply arraySort_sorted.
    + intros x y. rewrite !askBefore_spec.
      destruct (Qlt_le_dec (OrderBookLevel.price y) (OrderBookLevel.price x));
        [right | left]; lra.
    + intros x y z. rewrite !askBefore_spec. intros; lra.
  - rewrite kept_levels_have_size, andb_true_r. apply sorted_descendingb.
    eapply StronglySorted_weaken; [apply bidBefore_spec|].
    apply arraySort_sorted.
    + intros x y. rewrite !bidBefore_spec.
      destruct (Qlt_le_dec (OrderBookLevel.price y) (OrderBookLevel.price x));
        [left | right]; lra.
    + intros x y z. rewrite !bidBefore_spec. intros; lra.
Qed.

(** A response with its levels out of order and one level without size. *)
Example fetched_book_sample :
  let level := OrderBookLevel.mk in
  let book := fetchOrderBook
                (OrderBookResponse.mk Samples.opened Samples.closed 0
                   [level 0.38 10; level 0.39 20; level 0.37 0]
                   [level 0.42 100; level 0.40 50; level 0.41 0]) in
  OrderBook.bids book = [level 0.39 20; level 0.38 10]
  /\ OrderBook.asks book = [level 0.40 50; level 0.42 100].
Proof. split; reflexivity. Qed.

(** When the YES quotes of the open markets of a Kalshi response are in
    cents between 0 and 100, [fetchMarkets] gives one market per open
    market, each with a YES probability in [0,1]: its output passes the
    range check that the discrepancy engine's guarantees ask for. *)
Theorem kalshi_midpoints_are_probabilities normalizeCategory now markets :
  forallb quotedInCents (List.filter isOpen markets) = true ->
  let out := fetchMarkets normalizeCategory now markets in
  probabilitiesInRange out = true
  /\ Forall (fun m => NormalizedMarket.platform m = KALSHI) out
  /\ List.map NormalizedMarket.question out
     = List.map KalshiMarket.title (List.filter isOpen markets).
Proof.
  intros Hcents. cbv zeta. unfold fetchMarkets.
  change (List.filter _ markets) with (List.filter isOpen markets).
  set (opened := List.filter isOpen markets) in *.
  split; [|split].
  - unfold probabilitiesInRange. rewrite forallb_forall in *.
    intros m Hm. apply in_map_iff in Hm as (k & <- & Hk).
    specialize (Hcents k Hk). unfold quotedInCents in Hcents.
    apply andb_true_iff in Hcents as [Hcents H4].
    apply andb_true_iff in Hcents as [Hcents H3].
    apply andb_true_iff in Hcents as [H1 H2].
    apply Qle_bool_iff in H1, H2, H3, H4.
    cbn [normalizeMarket NormalizedMarket.yesProbability].
    apply andb_true_iff. split; apply Qle_bool_iff.
    + apply Qle_shift_div_l; [reflexivity|].
      apply Qle_shift_div_l; [reflexivity|]. lra.
    + apply Qle_shift_div_r; [reflexivity|].
      apply Qle_shift_div_r; [reflexivity|]. lra.
  - apply Forall_forall. intros m Hm. apply in_map_iff in Hm as (k & <- & _).
    reflexivity.
  - rewrite map_map. reflexivity.
Qed.

Lemma kalshi_midpoints_are_probabilities_witness :
  probabilitiesInRange
    (fetchMarkets (fun c => c) 0
       [Samples.kalshiMarket Samples.opened 40 44;
        Samples.kalshiMarket Samples.closed 0 120])
  = true.
Proof.
  apply (kalshi_midpoints_are_probabilities (fun c => c) 0
           [Samples.kalshiMarket Samples.opened 40 44;
            Samples.kalshiMarket Samples.closed 0 120]).
  reflexivity.
Defined.
End Adapters.

(** ** groupSimilarMarkets and detectDiscrepancies: nothing is missed *)

Section GroupingComplete.
Import DiscrepancyEngine.

Lemma mapHas_In slug groups :
  mapHas slug groups = true <-> In slug (List.map fst groups).
Proof.
  unfold mapHas. rewrite existsb_exists. split.
  - intros ([k v] & Hin & Heq). apply String.eqb_eq in Heq. simpl in Heq. subst k.
    apply in_map_iff. exists (slug, v). split; [reflexivity | exact Hin].
  - intros Hin. apply in_map_iff in Hin as ([k v] & <- & Hin).
    exists (k, v). split; [exact Hin | apply String.eqb_refl].
Qed.

Lemma mapSet_absent slug g groups :
  ~ In slug (List.map fst groups) -> mapSet slug g groups = groups ++ [(slug, g)].
Proof.
  induction groups as [|[k v] rest IH]; simpl; intros Hn; [reflexivity|].
  destruct (String.eqb k slug) eqn:E.
  - apply String.eqb_eq in E. exfalso. apply Hn. left. exact E.
  - f_equal. apply IH. intros H. apply Hn. right. exact H.
Qed.

Lemma pushMarket_keys slug market groups :
  List.map fst (pushMarket slug market groups) = List.map fst groups.
Proof.
  induction groups as [|[k v] rest IH]; simpl; [reflexivity|].
  destruct (String.eqb k slug); simpl; [reflexivity | f_equal; exact IH].
Qed.

Lemma pushMarket_In slug market groups k' g' :
  NoDup (List.map fst groups) ->
  In (k', g') (pushMarket slug market groups) ->
  exists g,
    In (k', g) groups
    /\ ((k' = slug
         /\ g' = mkGroup (eventSlug g) (eventTitle g) (markets g ++ [market]))
        \/ (k' <> slug /\ g' = g)).
Proof.
  induction groups as [|[k v] rest IH]; simpl; intros Hnd Hin; [destruct Hin|].
  inversion Hnd as [|? ? Hk Hrest]; subst.
  destruct (String.eqb k slug) eqn:E.
  - apply String.eqb_eq in E. subst k. destruct Hin as [Heq | Hin].
    + injection Heq as <- <-. exists v.
      split; [left; reflexivity | left; split; reflexivity].
    + exists g'. split; [right; exact Hin|]. right. split; [|reflexivity].
      intros ->. apply Hk. apply in_map_iff. exists (slug, g').
      split; [reflexivity | exact Hin].
  - apply String.eqb_neq in E. destruct Hin as [Heq | Hin].
    + injection Heq as <- <-. exists v. split; [left; reflexivity|].
      right. split; [exact E | reflexivity].
    + destruct (IH Hrest Hin) as (g & Hg & Hcase). exists g.
      split; [right; exact Hg | exact Hcase].
Qed.

Lemma addMarket_groupedSoFar done groups m :
  groupedSoFar done groups -> groupedSoFar (done ++ [m]) (addMarket groups m).
Proof.
  intros (Hnd & Hent & Hcov). unfold addMarket. fold (slugOf m).
  remember (slugOf m) as k eqn:Hk.
  assert (Hsame_k : sameSlug k (done ++ [m]) = sameSlug k done ++ [m]).
  { unfold sameSlug. rewrite filter_app. simpl. rewrite <- Hk, String.eqb_refl.
    reflexivity. }
  assert (Hsame_other : forall k', k' <> k -> sameSlug k' (done ++ [m]) = sameSlug k' done).
  { intros k' Hne. unfold sameSlug. rewrite filter_app. simpl. rewrite <- Hk.
    destruct (String.eqb k k') eqn:E;
      [apply String.eqb_eq in E; congruence | apply app_nil_r]. }
  destruct (mapHas k groups) eqn:Hhas; cbn [negb].
  - apply mapHas_In in Hhas.
    split; [rewrite pushMarket_keys; exact Hnd|]. split.
    + intros k' g' Hin.
      destruct (pushMarket_In k m groups k' g' Hnd Hin)
        as (g & Hg & [[-> ->] | [Hne ->]]).
      * destruct (Hent k g Hg) as (Hslug & Hmk & (first & rest & Hfirst & Htitle)).
        simpl. split; [exact Hslug|].
        split; [rewrite Hsame_k, Hmk; reflexivity|].
        exists first, (rest ++ [m]). simpl.
        split; [rewrite Hfirst; reflexivity | exact Htitle].
      * destruct (Hent k' g Hg) as (Hslug & Hmk & Ht).
        split; [exact Hslug|].
        split; [rewrite Hsame_other by exact Hne; exact Hmk | exact Ht].
    + intros m' Hm'. rewrite pushMarket_keys.
      apply in_app_or in Hm' as [Hm' | [<- | []]];
        [apply Hcov; exact Hm' | rewrite <- Hk; exact Hhas].
  - assert (Hno : ~ In k (List.map fst groups)).
    { intros H. apply mapHas_In in H. congruence. }
    rewrite (mapSet_absent k _ groups Hno).
    assert (Hnd' : NoDup (List.map fst
                            (groups ++ [(k, mkGroup k (NormalizedMarket.question m) [])]))).
    { rewrite map_app. simpl.
      apply (Permutation_NoDup (l := k :: List.map fst groups));
        [apply Permutation_cons_append | constructor; assumption]. }
    assert (Hnone : sameSlug k done = []).
    { destruct (sameSlug k done) as [|x xs] eqn:Ex; [reflexivity|].
      assert (Hx : In x (sameSlug k done)) by (rewrite Ex; left; reflexivity).
      apply filter_In in Hx as [Hin Heq]. apply String.eqb_eq in Heq.
      exfalso. apply Hno. rewrite <- Heq. apply Hcov, Hin. }
    split; [rewrite pushMarket_keys; exact Hnd'|]. split.
    + intros k' g' Hin.
      destruct (pushMarket_In k m _ k' g' Hnd' Hin) as (g & Hg & Hcase).
      apply in_app_or in Hg as [Hg | [Heq | []]].
      * assert (Hne : k' <> k).
        { intros ->. apply Hno. apply in_map_iff. exists (k, g).
          split; [reflexivity | exact Hg]. }
        destruct Hcase as [[Heq _] | [_ ->]]; [congruence|].
        destruct (Hent k' g Hg) as (Hslug & Hmk & Ht).
        split; [exact Hslug|].
        split; [rewrite Hsame_other by exact Hne; exact Hmk | exact Ht].
      * injection Heq as Hkk Hgg. subst k' g.
        destruct Hcase as [[_ ->] | [Hne _]]; [|congruence]. simpl.
        split; [reflexivity|]. split.
        -- rewrite Hsame_k, Hnone. reflexivity.
        -- exists m, []. split; reflexivity.
    + intros m' Hm'. rewrite pushMarket_keys, map_app. apply in_or_app.
      apply in_app_or in Hm' as [Hm' | [<- | []]];
        [left; apply Hcov; exact Hm' | right; left; exact Hk].
Qed.

Lemma fold_addMarket_groupedSoFar rest : forall done groups,
  groupedSoFar done groups ->
  groupedSoFar (done ++ rest) (fold_left addMarket rest groups).
Proof.
  induction rest as [|m rest IH]; intros done groups H; simpl;
    [rewrite app_nil_r; exact H|].
  replace (done ++ m :: rest) with ((done ++ [m]) ++ rest)
    by (rewrite <- app_assoc; reflexivity).
  apply IH, addMarket_groupedSoFar, H.
Qed.

Lemma NoDup_map_filter {A B} (f : A -> B) (p : A -> bool) l :
  NoDup (List.map f l) -> NoDup (List.map f (List.filter p l)).
Proof.
  induction l as [|x rest IH]; simpl; intros Hnd; [constructor|].
  inversion Hnd as [|? ? Hx Hrest]; subst.
  destruct (p x); simpl; [|apply IH; exact Hrest].
  constructor; [|apply IH; exact Hrest].
  intros Hin. apply Hx. apply in_map_iff in Hin as (y & Hy & Hin).
  apply filter_In in Hin as [Hin _]. apply in_map_iff. exists y. split; assumption.
Qed.

Lemma groupSimilarMarkets_spec markets0 :
  NoDup (List.map eventSlug (groupSimilarMarkets markets0))
  /\ Forall (fun g => markets g = sameSlug (eventSlug g) markets0
                      /\ (2 <= List.length (markets g))%nat
                      /\ titledByFirst g)
       (groupSimilarMarkets markets0)
  /\ (forall m, In m markets0 ->
        (2 <= List.length (sameSlug (slugOf m) markets0))%nat ->
        exists g, In g (groupSimilarMarkets markets0)
                  /\ eventSlug g = slugOf m
                  /\ markets g = sameSlug (slugOf m) markets0).
Proof.
  assert (Hinit : groupedSoFar [] []).
  { split; [constructor|]. split; intros; contradiction. }
  destruct (fold_addMarket_groupedSoFar markets0 [] [] Hinit) as (Hnd & Hent & Hcov).
  simpl in Hent, Hcov. unfold groupSimilarMarkets.
  set (G := fold_left addMarket markets0 []) in *.
  split; [|split].
  - apply NoDup_map_filter.
    replace (List.map eventSlug (List.map snd G)) with (List.map fst G); [exact Hnd|].
    rewrite map_map. apply map_ext_in. intros [k g] Hin. simpl.
    symmetry. apply (Hent k g Hin).
  - apply Forall_forall. intros g Hg. apply filter_In in Hg as [Hg Hlen].
    apply in_map_iff in Hg as ([k g0] & Heq & Hin). simpl in Heq. subst g0.
    destruct (Hent k g Hin) as (Hs & Hm & Ht). rewrite Hs.
    split; [exact Hm|]. split; [apply Nat.ltb_lt in Hlen; lia | exact Ht].
  - intros m Hm Hlen. pose proof (Hcov m Hm) as Hkey.
    apply in_map_iff in Hkey as ([k g] & Hk & Hin). simpl in Hk. subst k.
    destruct (Hent _ g Hin) as (Hs & Hmk & _). exists g.
    split; [|split; [exact Hs | exact Hmk]].
    apply filter_In. split.
    + apply in_map_iff. exists (slugOf m, g). split; [reflexivity | exact Hin].
    + apply Nat.ltb_lt. rewrite Hmk. lia.
Qed.

(** [groupSimilarMarkets] files the markets by slug and misses none: the
    groups have distinct slugs, each one holds all the markets of the
    input with its slug, in the order of the input and at least two of
    them, under the question of the first; and every slug that two or
    more markets of the input share has its group. *)
Theorem groups_are_the_shared_slugs markets0 :
  let groups := groupSimilarMarkets markets0 in
  NoDup (List.map eventSlug groups)
  /\ Forall (fun g => markets g = sameSlug (eventSlug g) markets0
                      /\ (2 <= List.length (markets g))%nat
                      /\ titledByFirst g) groups
  /\ (forall m, In m markets0 ->
        (2 <= List.length (sameSlug (slugOf m) markets0))%nat ->
        exists g, In g groups /\ eventSlug g = slugOf m /\ In m (markets g)).
Proof.
  cbv zeta. destruct (groupSimilarMarkets_spec markets0) as (Hnd & Hall & Hcov).
  split; [exact Hnd|]. split; [exact Hall|].
  intros m Hm Hlen. destruct (Hcov m Hm Hlen) as (g & Hg & Hs & Hmk).
  exists g. split; [exact Hg|]. split; [exact Hs|].
  rewrite Hmk. apply filter_In. split; [exact Hm | apply String.eqb_refl].
Qed.

Lemma maxOf_ge xs : forall x,
  x <= maxOf x xs /\ Forall (fun y => y <= maxOf x xs) xs.
Proof.
  unfold maxOf. induction xs as [|y ys IH]; intros x; simpl.
  - split; [lra | constructor].
  - destruct (IH (Qmax x y)) as [Hacc Hall].
    pose proof (Q.le_max_l x y). pose proof (Q.le_max_r x y).
    split; [lra|]. constructor; [lra | exact Hall].
Qed.

Lemma minOf_le xs : forall x,
  minOf x xs <= x /\ Forall (fun y => minOf x xs <= y) xs.
Proof.
  unfold minOf. induction xs as [|y ys IH]; intros x; simpl.
  - split; [lra | constructor].
  - destruct (IH (Qmin x y)) as [Hacc Hall].
    pose proof (Q.le_min_l x y). pose proof (Q.le_min_r x y).
    split; [lra|]. constructor; [lra | exact Hall].
Qed.

Lemma analyzeGroup_wide searchNews g m1 m2 :
  In m1 (markets g) -> In m2 (markets g) ->
  0.03 <= NormalizedMarket.yesProbability m2 - NormalizedMarket.yesProbability m1 ->
  exists d,
    analyzeGroup searchNews g = Some d
    /\ NormalizedMarket.yesProbability m2 - NormalizedMarket.yesProbability m1
       <= DiscrepancyResult.maxSpread d
    /\ DiscrepancyResult.markets d = List.map quoteOf (markets g)
    /\ DiscrepancyResult.eventSlug d = eventSlug g.
Proof.
  intros H1 H2 Hwide. unfold analyzeGroup.
  apply (in_map NormalizedMarket.yesProbability) in H1, H2.
  destruct (List.map NormalizedMarket.yesProbability (markets g)) as [|y ys];
    [destruct H1|].
  destruct (maxOf_ge ys y) as [Hmax Hmaxs]. destruct (minOf_le ys y) as [Hmin Hmins].
  rewrite Forall_forall in Hmaxs, Hmins.
  assert (Hhi : NormalizedMarket.yesProbability m2 <= maxOf y ys).
  { destruct H2 as [<- | H2]; [exact Hmax | apply Hmaxs, H2]. }
  assert (Hlo : minOf y ys <= NormalizedMarket.yesProbability m1).
  { destruct H1 as [<- | H1]; [exact Hmin | apply Hmins, H1]. }
  cbv zeta. destruct (Qltb (maxOf y ys - minOf y ys) MIN_SPREAD_THRESHOLD) eqn:E.
  { apply Qltb_true in E. unfold MIN_SPREAD_THRESHOLD in E. lra. }
  eexists. split; [reflexivity|]. simpl. split; [lra | split; reflexivity].
Qed.

Lemma collect_incl searchNews groups : forall acc d,
  In d acc -> In d (collect searchNews groups acc).
Proof.
  induction groups as [|g rest IH]; simpl; intros acc d Hin; [exact Hin|].
  destruct (List.length (markets g) <? 2)%nat; [apply IH; exact Hin|].
  destruct (analyzeGroup searchNews g) as [analysis|]; [|apply IH; exact Hin].
  destruct (Qgeb _ MIN_SPREAD_THRESHOLD); apply IH;
    [apply in_or_app; left|]; exact Hin.
Qed.

Lemma collect_complete searchNews groups g d :
  In g groups ->
  (2 <= List.length (markets g))%nat ->
  analyzeGroup searchNews g = Some d ->
  forall acc, In d (collect searchNews groups acc).
Proof.
  induction groups as [|g0 rest IH]; intros Hin Hlen Han acc; [destruct Hin|].
  simpl. destruct Hin as [-> | Hin].
  - destruct (List.length (markets g) <? 2)%nat eqn:E;
      [apply Nat.ltb_lt in E; lia|].
    rewrite Han.
    destruct (analyzeGroup_confidence searchNews g d Han) as (Hs & _).
    assert (Hgo : Qgeb (DiscrepancyResult.maxSpread d) MIN_SPREAD_THRESHOLD = true)
      by (unfold Qgeb, MIN_SPREAD_THRESHOLD; apply Qle_bool_iff; exact Hs).
    rewrite Hgo. apply collect_incl. apply in_or_app. right. left. reflexivity.
  - destruct (List.length (markets g0) <? 2)%nat; [apply IH; assumption|].
    destruct (analyzeGroup searchNews g0) as [analysis|]; [|apply IH; assumption].
    destruct (Qgeb _ MIN_SPREAD_THRESHOLD); apply IH; assumption.
Qed.

Lemma two_members {A} (a b : A) l :
  In a l -> In b l -> a <> b -> (2 <= List.length l)%nat.
Proof.
  destruct l as [|x [|y l']]; simpl; intros Ha Hb Hne;
    [contradiction | | lia].
  destruct Ha as [<- | []], Hb as [<- | []]. congruence.
Qed.

(** Two markets of the input with the same slug whose YES probabilities
    are 0.03 or more apart are always reported: [detectDiscrepancies]
    returns a discrepancy under their slug that quotes both of them and
    whose spread is at least their gap. *)
Theorem wide_pairs_are_reported searchNews markets0 m1 m2 :
  In m1 markets0 -> In m2 markets0 ->
  slugOf m1 = slugOf m2 ->
  0.03 <= NormalizedMarket.yesProbability m2 - NormalizedMarket.yesProbability m1 ->
  exists d,
    In d (detectDiscrepancies searchNews markets0)
    /\ DiscrepancyResult.eventSlug d = slugOf m1
    /\ NormalizedMarket.yesProbability m2 - NormalizedMarket.yesProbability m1
       <= DiscrepancyResult.maxSpread d
    /\ In (quoteOf m1) (DiscrepancyResult.markets d)
    /\ In (quoteOf m2) (DiscrepancyResult.markets d).
Proof.
  intros H1 H2 Hslug Hwide.
  assert (Hs1 : In m1 (sameSlug (slugOf m1) markets0)).
  { apply filter_In. split; [exact H1 | apply String.eqb_refl]. }
  assert (Hs2 : In m2 (sameSlug (slugOf m1) markets0)).
  { apply filter_In. split; [exact H2 | rewrite Hslug; apply String.eqb_refl]. }
  assert (Hne : m1 <> m2) by (intros ->; lra).
  pose proof (two_members m1 m2 _ Hs1 Hs2 Hne) as Hlen.
  destruct (groupSimilarMarkets_spec markets0) as (_ & Hall & Hcov).
  destruct (Hcov m1 H1 Hlen) as (g & Hg & Hs & Hmk).
  rewrite <- Hmk in Hs1, Hs2, Hlen.
  destruct (analyzeGroup_wide searchNews g m1 m2 Hs1 Hs2 Hwide)
    as (d & Han & Hsp & Hq & Hsl).
  exists d. split.
  - unfold detectDiscrepancies.
    apply (Permutation_in d (Permutation_sym (arraySort_Permutation _ _))).
    apply (collect_complete searchNews _ g d Hg Hlen Han).
  - split; [rewrite Hsl; exact Hs|]. split; [exact Hsp|].
    rewrite Hq. split; apply in_map; assumption.
Qed.

Lemma wide_pairs_are_reported_witness :
  exists d,
    In d (detectDiscrepancies Samples.noNews Samples.quotes)
    /\ DiscrepancyResult.eventSlug d
       = slugOf (Samples.quote POLYMARKET "Will Bitcoin reach 100k in 2025?" 0.40)
    /\ 0.46 - 0.40 <= DiscrepancyResult.maxSpread d
    /\ In (quoteOf (Samples.quote POLYMARKET "Will Bitcoin reach 100k in 2025?" 0.40))
         (DiscrepancyResult.markets d)
    /\ In (quoteOf (Samples.quote KALSHI "Bitcoin will reach 100k in 2025" 0.46))
         (DiscrepancyResult.markets d).
Proof.
  apply (wide_pairs_are_reported Samples.noNews Samples.quotes
           (Samples.quote POLYMARKET "Will Bitcoin reach 100k in 2025?" 0.40)
           (Samples.quote KALSHI "Bitcoin will reach 100k in 2025" 0.46)).
  - left. reflexivity.
  - right. right. left. reflexivity.
  - vm_compute. reflexivity.
  - vm_compute. discriminate.
Defined.
End GroupingComplete.

(** ** generateSlug *)

Section Slugs.
Import DiscrepancyEngine.

Lemma ascii_compare_refl a : Ascii.compare a a = Eq.
Proof. unfold Ascii.compare. apply N.compare_refl. Qed.

Lemma ascii_compare_lt_trans a b c :
  Ascii.compare a b = Lt -> Ascii.compare b c = Lt -> Ascii.compare a c = Lt.
Proof. unfold Ascii.compare. rewrite !N.compare_lt_iff. apply N.lt_trans. Qed.

Lemma string_leb_trans : forall a b c,
  String.leb a b = true -> String.leb b c = true -> String.leb a c = true.
Proof.
  unfold String.leb.
  induction a as [|x a IH]; intros [|y b] [|z c]; simpl; try congruence.
  destruct (Ascii.compare x y) eqn:Exy; [| |discriminate];
    (destruct (Ascii.compare y z) eqn:Eyz; [| |discriminate]).
  - apply Ascii.compare_eq_iff in Exy, Eyz. subst. rewrite ascii_compare_refl.
    apply IH.
  - apply Ascii.compare_eq_iff in Exy. subst. rewrite Eyz. reflexivity.
  - apply Ascii.compare_eq_iff in Eyz. subst. rewrite Exy. reflexivity.
  - rewrite (ascii_compare_lt_trans x y z Exy Eyz). reflexivity.
Qed.

Lemma sorted_permutation_eq {A} (R : A -> A -> Prop) :
  (forall x y, R x y -> R y x -> x = y) ->
  forall l1 l2,
  StronglySorted R l1 -> StronglySorted R l2 -> Permutation l1 l2 -> l1 = l2.
Proof.
  intros Hanti. induction l1 as [|x r1 IH]; intros l2 Hs1 Hs2 Hperm.
  - apply Permutation_nil in Hperm. symmetry. exact Hperm.
  - destruct l2 as [|y r2];
      [apply Permutation_sym, Permutation_nil in Hperm; discriminate|].
    inversion Hs1 as [|? ? Hr1 Hx]; subst. inversion Hs2 as [|? ? Hr2 Hy]; subst.
    rewrite Forall_forall in Hx, Hy.
    assert (Hxy : x = y).
    { assert (Hin1 : In x (y :: r2))
        by (apply (Permutation_in x Hperm); left; reflexivity).
      assert (Hin2 : In y (x :: r1))
        by (apply (Permutation_in y (Permutation_sym Hperm)); left; reflexivity).
      destruct Hin1 as [-> | Hin1]; [reflexivity|].
      destruct Hin2 as [-> | Hin2]; [reflexivity|].
      apply Hanti; [apply Hx, Hin2 | apply Hy, Hin1]. }
    subst y. f_equal. apply IH; [exact Hr1 | exact Hr2|].
    apply Permutation_cons_inv with x. exact Hperm.
Qed.

Lemma sorted_words_of_permutation words1 words2 :
  Permutation words1 words2 ->
  arraySort String.leb words1 = arraySort String.leb words2.
Proof.
  intros Hperm.
  apply (sorted_permutation_eq (fun a b => String.leb a b = true)).
  - apply String.leb_antisym.
  - apply arraySort_sorted; [apply String.leb_total | apply string_leb_trans].
  - apply arraySort_sorted; [apply String.leb_total | apply string_leb_trans].
  - rewrite !arraySort_Permutation. exact Hperm.
Qed.

Lemma substring_length : forall s n m,
  (String.length (String.substring n m s) <= m)%nat.
Proof.
  induction s as [|c s IH]; intros [|n] [|m]; simpl; try lia.
  - specialize (IH 0%nat m). lia.
  - apply (IH n 0%nat).
  - apply (IH n (S m)).
Qed.

(** The slug of a question has at most 100 characters and depends only
    on the words it keeps, not on their order: two questions whose kept
    words are the same up to order get the same slug, whatever their
    letter case and punctuation. *)
Theorem slug_ignores_word_order question1 question2 :
  Permutation (slugWords question1) (slugWords question2) ->
  generateSlug question1 = generateSlug question2
  /\ (String.length (generateSlug question1) <= 100)%nat.
Proof.
  intros Hperm. split; [|apply substring_length].
  unfold generateSlug. cbv zeta. fold (slugWords question1) (slugWords question2).
  rewrite (sorted_words_of_permutation _ _ Hperm). reflexivity.
Qed.

Lemma slug_ignores_word_order_witness :
  generateSlug "Will Bitcoin reach 100k in 2025?"
  = generateSlug "Bitcoin will reach 100k in 2025"
  /\ (String.length (generateSlug "Will Bitcoin reach 100k in 2025?") <= 100)%nat.
Proof.
  apply (slug_ignores_word_order "Will Bitcoin reach 100k in 2025?"
           "Bitcoin will reach 100k in 2025").
  vm_compute. apply perm_swap.
Defined.
End Slugs.
